(** * WhiteboardCanvas: board state, history, eraser and viewport

    A shallow embedding of the drawing-state engine of the
    [WhiteboardCanvas] React component (TypeScript).

    Conventions of the embedding.
    - A JavaScript [number] that holds a coordinate, a width or a scale is a
      real number ([R]); [Math.sqrt], [Math.max], [Math.min] and [**] are
      [sqrt], [Rmax], [Rmin] and [pow].  Rounding of IEEE doubles is not
      modelled: identities stated "within tolerance" are exact here.
    - [historyIndex] and array lengths are integers ([Z]); [Array.slice] and
      indexing are written out with their out-of-range behaviour.
    - Every [useState] cell and [useRef] cell the drawing engine reads is a
      field of [State]; a handler is a function [State -> State] that reads
      the values of the render it closes over and then applies its setters
      in order.  The socket is the list of events emitted so far. *)

From Stdlib Require Import Reals Lra String List ZArith Lia Bool.
Import ListNotations.

Open Scope string_scope.
Open Scope list_scope.
Open Scope R_scope.

(** ** Comparisons on numbers, as booleans *)

Definition Rleb (a b : R) : bool := if Rle_dec a b then true else false.
Definition Rltb (a b : R) : bool := if Rlt_dec a b then true else false.
(** [a >= b] and [a > b] of the source. *)
Definition Rgeb (a b : R) : bool := Rleb b a.
Definition Rgtb (a b : R) : bool := Rltb b a.

(** ** Data model *)

(** [{ x: number; y: number }] *)
Module Pos.
Record t : Type := mk { x : R; y : R }.
End Pos.

(** [interface LineData] *)
Module Line.
Record t : Type := mk {
  points : list R;
  tool : string;
  color : string;
  lineWidth : R
}.
End Line.

(** [interface ShapeData] *)
Module Shape.
Record t : Type := mk {
  type : string;
  x : R;
  y : R;
  width : R;
  height : R;
  tool : string
}.
End Shape.

(** [interface Viewport] *)
Module Viewport.
Record t : Type := mk { x : R; y : R; scale : R }.
End Viewport.

(** An entry of [history]: [{ lines: LineData[]; shapes: ShapeData[] }]. *)
Module Snapshot.
Record t : Type := mk { lines : list Line.t; shapes : list Shape.t }.
Definition empty : t := mk [] [].
End Snapshot.

(** ** Geometry *)

Module Geometry.

(** [screenToWorld], closed over [viewport]. *)
Definition screenToWorld (viewport : Viewport.t) (screenX screenY : R) : Pos.t :=
  Pos.mk ((screenX - Viewport.x viewport) / Viewport.scale viewport)
         ((screenY - Viewport.y viewport) / Viewport.scale viewport).

(** [worldToScreen], closed over [viewport]. *)
Definition worldToScreen (viewport : Viewport.t) (worldX worldY : R) : Pos.t :=
  Pos.mk (worldX * Viewport.scale viewport + Viewport.x viewport)
         (worldY * Viewport.scale viewport + Viewport.y viewport).

(** The updater passed to [setViewport] in [handleWheel]: [deltaY] is the
    wheel delta, [(mouseX, mouseY)] the pointer relative to the canvas. *)
Definition zoomAt (deltaY mouseX mouseY : R) (prev : Viewport.t) : Viewport.t :=
  let zoomFactor := 0.1 in
  let delta := if Rgtb deltaY 0 then 1 - zoomFactor else 1 + zoomFactor in
  let newScale := Rmax 0.1 (Rmin 5 (Viewport.scale prev * delta)) in
  let scaleRatio := newScale / Viewport.scale prev in
  Viewport.mk (mouseX - (mouseX - Viewport.x prev) * scaleRatio)
              (mouseY - (mouseY - Viewport.y prev) * scaleRatio)
              newScale.

End Geometry.

(** ** JavaScript arrays *)

Module JsArray.

(** [arr.length > 0] *)
Definition nonEmpty {A : Type} (arr : list A) : bool :=
  match arr with [] => false | _ :: _ => true end.

(** [arr[i]]: [None] is [undefined], for a negative or too large index. *)
Definition index {A : Type} (arr : list A) (i : Z) : option A :=
  if (i <? 0)%Z then None else nth_error arr (Z.to_nat i).

(** [arr.slice(0, e)]: a negative [e] counts from the end, and both ends are
    clamped to the array. *)
Definition slice0 {A : Type} (arr : list A) (e : Z) : list A :=
  let len := Z.of_nat (length arr) in
  let final := if (e <? 0)%Z then Z.max (len + e) 0 else Z.min e len in
  firstn (Z.to_nat final) arr.

(** [arr[arr.length - 1]] *)
Definition lastElem {A : Type} (arr : list A) : option A :=
  index arr (Z.of_nat (length arr) - 1).

End JsArray.

(** ** The eraser's walk over one stroke *)

Module Eraser.

(** [Math.sqrt((pointX - x) ** 2 + (pointY - y) ** 2)] *)
Definition distance (pointX pointY x y : R) : R :=
  sqrt ((pointX - x) ^ 2 + (pointY - y) ^ 2).

(** The variables the [for] loop of [eraseAtPoint] updates: [segments],
    [currentSegment] and [isInEraser] are local to one stroke, [hasChanges]
    is shared by the whole pass. *)
Record Loop : Type := mkLoop {
  segments : list (list R);
  currentSegment : list R;
  isInEraser : bool;
  hasChanges : bool
}.

(** [segments.push([...currentSegment]); currentSegment = [];] *)
Definition flush (st : Loop) : Loop :=
  mkLoop (segments st ++ [currentSegment st]) [] (isInEraser st) (hasChanges st).

(** The body of the loop once [isInEraser] is known; [coords] is what
    [currentSegment.push(pointX, pointY)] appends. *)
Definition visit (inEraser : bool) (coords : list R) (st : Loop) : Loop :=
  let wasInEraser := isInEraser st in
  if negb inEraser then
    let st1 :=
      if wasInEraser
      then (if JsArray.nonEmpty (currentSegment st) then flush st else st)
      else st in
    mkLoop (segments st1) (currentSegment st1 ++ coords) inEraser (hasChanges st1)
  else
    let st1 :=
      if negb wasInEraser && JsArray.nonEmpty (currentSegment st)
      then flush st else st in
    mkLoop (segments st1) (currentSegment st1) inEraser true.

(** [for (let i = 0; i < line.points.length; i += 2)].  A sequence of odd
    length ends with a lone [pointX]: [pointY] is then [undefined], the
    distance is [NaN] and [NaN <= eraserRadius] is false, so the point counts
    as outside; [list R] has no [undefined], and the model appends the lone
    coordinate only.  Strokes drawn by this component have even length. *)
Fixpoint walk (x y eraserRadius : R) (pts : list R) (st : Loop) : Loop :=
  match pts with
  | pointX :: pointY :: rest =>
      walk x y eraserRadius rest
        (visit (Rleb (distance pointX pointY x y) eraserRadius) [pointX; pointY] st)
  | [pointX] => visit false [pointX] st
  | [] => st
  end.

(** The segments of one stroke after the trailing flush
    [if (currentSegment.length > 0) segments.push(currentSegment)], with the
    updated [hasChanges]. *)
Definition segmentsOf (x y eraserRadius : R) (pts : list R) (hasChanges0 : bool)
  : list (list R) * bool :=
  let st := walk x y eraserRadius pts (mkLoop [] [] false hasChanges0) in
  (if JsArray.nonEmpty (currentSegment st)
   then segments st ++ [currentSegment st] else segments st,
   hasChanges st).

(** [segment.length >= 4] *)
Definition longEnough (segment : list R) : bool := (4 <=? length segment)%nat.

(** The strokes pushed by [segments.forEach]: the segments of at least 4
    numbers, with the tool, colour and width of [line]. *)
Definition fragments (line : Line.t) (segs : list (list R)) : list Line.t :=
  map (fun segment =>
         Line.mk segment (Line.tool line) (Line.color line) (Line.lineWidth line))
      (filter longEnough segs).

(** The callback of [lines.forEach]; the accumulator is [newLines] and
    [hasChanges]. *)
Definition eraseLine (x y eraserRadius : R)
  (acc : list Line.t * bool) (line : Line.t) : list Line.t * bool :=
  let '(newLines, hasChanges0) := acc in
  if (length (Line.points line) <? 4)%nat then (newLines ++ [line], hasChanges0)
  else
    let '(segs, hasChanges1) :=
      segmentsOf x y eraserRadius (Line.points line) hasChanges0 in
    (newLines ++ fragments line segs, hasChanges1).

(** [isTouching] of the rectangle branch. *)
Definition isTouching (x y eraserRadius : R) (shape : Shape.t) : bool :=
  Rgeb x (Shape.x shape - eraserRadius) &&
  Rleb x (Shape.x shape + Shape.width shape + eraserRadius) &&
  Rgeb y (Shape.y shape - eraserRadius) &&
  Rleb y (Shape.y shape + Shape.height shape + eraserRadius).

(** The test of the circle branch: [distance <= radius + eraserRadius]. *)
Definition circleTouched (x y eraserRadius : R) (shape : Shape.t) : bool :=
  let radius := sqrt (Shape.width shape ^ 2 + Shape.height shape ^ 2) in
  let distance := sqrt ((Shape.x shape - x) ^ 2 + (Shape.y shape - y) ^ 2) in
  Rleb distance (radius + eraserRadius).

(** Whether the callback of [shapes.filter] takes one of its two
    [hasChanges = true; return false] exits. *)
Definition removesShape (x y eraserRadius : R) (shape : Shape.t) : bool :=
  if String.eqb (Shape.type shape) "rectangle" then isTouching x y eraserRadius shape
  else if String.eqb (Shape.type shape) "circle" then circleTouched x y eraserRadius shape
  else false.

(** The callback of [shapes.filter], with its effect on [hasChanges]; the
    accumulator is the array built by [filter] and [hasChanges]. *)
Definition filterShape (x y eraserRadius : R)
  (acc : list Shape.t * bool) (shape : Shape.t) : list Shape.t * bool :=
  let '(kept, hasChanges0) := acc in
  if removesShape x y eraserRadius shape then (kept, true)
  else (kept ++ [shape], hasChanges0).

(** The pure part of [eraseAtPoint]: [newLines], [newShapes] and
    [hasChanges]. *)
Definition pass (x y eraserRadius : R) (lines : list Line.t) (shapes : list Shape.t)
  : list Line.t * list Shape.t * bool :=
  let '(newLines, hasChanges0) :=
    fold_left (eraseLine x y eraserRadius) lines ([], false) in
  let '(newShapes, hasChanges1) :=
    fold_left (filterShape x y eraserRadius) shapes ([], hasChanges0) in
  (newLines, newShapes, hasChanges1).

End Eraser.

(** ** Events *)

(** [LineData | ShapeData], the [strokeData] of a [draw] event. *)
Inductive StrokeData : Type :=
| OfLine (line : Line.t)
| OfShape (shape : Shape.t).

(** What [socket.emit] sends for the board. *)
Inductive OutEvent : Type :=
| EmitDraw (roomId : string) (strokeData : StrokeData)
| EmitUpdateBoard (roomId : string) (lines : list Line.t) (shapes : list Shape.t)
| EmitClearBoard (roomId : string).

(** [type DrawData = DrawEnvelope | LineData | ShapeData] *)
Inductive DrawData : Type :=
| DrawEnvelope (roomId : option string) (strokeData : StrokeData)
| DrawBare (payload : StrokeData).

(** [type LoadBoardData = LineData[] | { lines?: LineData[]; shapes?: ShapeData[] }] *)
Inductive LoadBoardData : Type :=
| LoadArray (data : list Line.t)
| LoadObject (lines : option (list Line.t)) (shapes : option (list Shape.t)).

Module MouseEvent.
Record t : Type := mk { button : Z; clientX : R; clientY : R }.
End MouseEvent.

Module WheelEvent.
Record t : Type := mk { deltaY : R; clientX : R; clientY : R }.
End WheelEvent.

(** [getBoundingClientRect()], of which only [left] and [top] are read. *)
Module Rect.
Record t : Type := mk { left : R; top : R }.
End Rect.

(** ** Component state *)

(** The [useState] and [useRef] cells of [WhiteboardCanvas] that the drawing
    engine reads, the [roomId] prop, the bounding rectangle of the canvas
    ([None] while [canvasRef.current] is null) and the events emitted on the
    socket, oldest first. *)
Record State : Type := mkState {
  roomId : string;
  lines : list Line.t;
  shapes : list Shape.t;
  selectedTool : string;
  selectedColor : string;
  selectedLineWidth : R;
  history : list Snapshot.t;
  historyIndex : Z;
  viewport : Viewport.t;
  isPanning : bool;
  isDrawingRef : bool;
  startPos : option Pos.t;
  lastPanPos : option Pos.t;
  canvasRect : option Rect.t;
  emitted : list OutEvent
}.

(** The state of the first render. *)
Definition initialState (room : string) (rect : option Rect.t) : State :=
  mkState room [] [] "pen" "#000000" 2 [Snapshot.empty] 0%Z
          (Viewport.mk 0 0 1) false false None None rect [].

(** A handler, and each of the state setters a handler calls. *)
Definition Handler : Type := State -> State.

Definition skip : Handler := fun s => s.

Definition andThen (f g : Handler) : Handler := fun s => g (f s).

Notation "f ;; g" := (andThen f g) (at level 61, right associativity).

Definition updLines (f : list Line.t -> list Line.t) : Handler := fun s =>
  mkState (roomId s) (f (lines s)) (shapes s) (selectedTool s) (selectedColor s)
          (selectedLineWidth s) (history s) (historyIndex s) (viewport s)
          (isPanning s) (isDrawingRef s) (startPos s) (lastPanPos s)
          (canvasRect s) (emitted s).

Definition updShapes (f : list Shape.t -> list Shape.t) : Handler := fun s =>
  mkState (roomId s) (lines s) (f (shapes s)) (selectedTool s) (selectedColor s)
          (selectedLineWidth s) (history s) (historyIndex s) (viewport s)
          (isPanning s) (isDrawingRef s) (startPos s) (lastPanPos s)
          (canvasRect s) (emitted s).

Definition setLines (v : list Line.t) : Handler := updLines (fun _ => v).

Definition setShapes (v : list Shape.t) : Handler := updShapes (fun _ => v).

Definition setSelectedTool (v : string) : Handler := fun s =>
  mkState (roomId s) (lines s) (shapes s) v (selectedColor s)
          (selectedLineWidth s) (history s) (historyIndex s) (viewport s)
          (isPanning s) (isDrawingRef s) (startPos s) (lastPanPos s)
          (canvasRect s) (emitted s).

Definition setSelectedColor (v : string) : Handler := fun s =>
  mkState (roomId s) (lines s) (shapes s) (selectedTool s) v
          (selectedLineWidth s) (history s) (historyIndex s) (viewport s)
          (isPanning s) (isDrawingRef s) (startPos s) (lastPanPos s)
          (canvasRect s) (emitted s).

Definition setSelectedLineWidth (v : R) : Handler := fun s =>
  mkState (roomId s) (lines s) (shapes s) (selectedTool s) (selectedColor s)
          v (history s) (historyIndex s) (viewport s)
          (isPanning s) (isDrawingRef s) (startPos s) (lastPanPos s)
          (canvasRect s) (emitted s).

Definition setHistory (v : list Snapshot.t) : Handler := fun s =>
  mkState (roomId s) (lines s) (shapes s) (selectedTool s) (selectedColor s)
          (selectedLineWidth s) v (historyIndex s) (viewport s)
          (isPanning s) (isDrawingRef s) (startPos s) (lastPanPos s)
          (canvasRect s) (emitted s).

Definition setHistoryIndex (v : Z) : Handler := fun s =>
  mkState (roomId s) (lines s) (shapes s) (selectedTool s) (selectedColor s)
          (selectedLineWidth s) (history s) v (viewport s)
          (isPanning s) (isDrawingRef s) (startPos s) (lastPanPos s)
          (canvasRect s) (emitted s).

Definition updViewport (f : Viewport.t -> Viewport.t) : Handler := fun s =>
  mkState (roomId s) (lines s) (shapes s) (selectedTool s) (selectedColor s)
          (selectedLineWidth s) (history s) (historyIndex s) (f (viewport s))
          (isPanning s) (isDrawingRef s) (startPos s) (lastPanPos s)
          (canvasRect s) (emitted s).

Definition setViewport (v : Viewport.t) : Handler := updViewport (fun _ => v).

Definition setIsPanning (v : bool) : Handler := fun s =>
  mkState (roomId s) (lines s) (shapes s) (selectedTool s) (selectedColor s)
          (selectedLineWidth s) (history s) (historyIndex s) (viewport s)
          v (isDrawingRef s) (startPos s) (lastPanPos s)
          (canvasRect s) (emitted s).

Definition setIsDrawingRef (v : bool) : Handler := fun s =>
  mkState (roomId s) (lines s) (shapes s) (selectedTool s) (selectedColor s)
          (selectedLineWidth s) (history s) (historyIndex s) (viewport s)
          (isPanning s) v (startPos s) (lastPanPos s)
          (canvasRect s) (emitted s).

Definition setStartPos (v : option Pos.t) : Handler := fun s =>
  mkState (roomId s) (lines s) (shapes s) (selectedTool s) (selectedColor s)
          (selectedLineWidth s) (history s) (historyIndex s) (viewport s)
          (isPanning s) (isDrawingRef s) v (lastPanPos s)
          (canvasRect s) (emitted s).

Definition setLastPanPos (v : option Pos.t) : Handler := fun s =>
  mkState (roomId s) (lines s) (shapes s) (selectedTool s) (selectedColor s)
          (selectedLineWidth s) (history s) (historyIndex s) (viewport s)
          (isPanning s) (isDrawingRef s) (startPos s) v
          (canvasRect s) (emitted s).

Definition setCanvasRect (v : option Rect.t) : Handler := fun s =>
  mkState (roomId s) (lines s) (shapes s) (selectedTool s) (selectedColor s)
          (selectedLineWidth s) (history s) (historyIndex s) (viewport s)
          (isPanning s) (isDrawingRef s) (startPos s) (lastPanPos s)
          v (emitted s).

(** [socket.emit(...)] *)
Definition emit (ev : OutEvent) : Handler := fun s =>
  mkState (roomId s) (lines s) (shapes s) (selectedTool s) (selectedColor s)
          (selectedLineWidth s) (history s) (historyIndex s) (viewport s)
          (isPanning s) (isDrawingRef s) (startPos s) (lastPanPos s)
          (canvasRect s) (emitted s ++ [ev]).

(** ** History *)

(** [addToHistory], closed over the [history] and [historyIndex] of the
    render [render]. *)
Definition addToHistory (render : State)
  (newLines : list Line.t) (newShapes : list Shape.t) : Handler :=
  let newHistory :=
    JsArray.slice0 (history render) (historyIndex render + 1)
      ++ [Snapshot.mk newLines newShapes] in
  setHistory newHistory ;;
  setHistoryIndex (Z.of_nat (length newHistory) - 1).

(** [undo].  Were [history[newIndex]] undefined, reading [previousState.lines]
    would throw before any setter runs, which leaves the state as it is. *)
Definition undo : Handler := fun render =>
  if (0 <? historyIndex render)%Z then
    let newIndex := (historyIndex render - 1)%Z in
    match JsArray.index (history render) newIndex with
    | Some previousState =>
        (setLines (Snapshot.lines previousState) ;;
         setShapes (Snapshot.shapes previousState) ;;
         setHistoryIndex newIndex ;;
         emit (EmitUpdateBoard (roomId render)
                 (Snapshot.lines previousState) (Snapshot.shapes previousState)))
          render
    | None => render
    end
  else render.

(** [redo], with the same remark on an undefined [history[newIndex]]. *)
Definition redo : Handler := fun render =>
  if (historyIndex render <? Z.of_nat (length (history render)) - 1)%Z then
    let newIndex := (historyIndex render + 1)%Z in
    match JsArray.index (history render) newIndex with
    | Some nextState =>
        (setLines (Snapshot.lines nextState) ;;
         setShapes (Snapshot.shapes nextState) ;;
         setHistoryIndex newIndex ;;
         emit (EmitUpdateBoard (roomId render)
                 (Snapshot.lines nextState) (Snapshot.shapes nextState)))
          render
    | None => render
    end
  else render.

(** [clearCanvas] *)
Definition clearCanvas : Handler := fun render =>
  (setLines [] ;;
   setShapes [] ;;
   setHistory [Snapshot.empty] ;;
   setHistoryIndex 0%Z ;;
   emit (EmitClearBoard (roomId render))) render.

(** ** Eraser *)

(** [eraseAtPoint], closed over the [lines], [shapes], [viewport], [history]
    and [historyIndex] of the render [render]; its setters act on the state
    being built by the handler that calls it. *)
Definition eraseAtPoint (render : State) (x y : R) : Handler :=
  let eraserRadius := 12 / Viewport.scale (viewport render) in
  let '(newLines, newShapes, hasChanges) :=
    Eraser.pass x y eraserRadius (lines render) (shapes render) in
  if hasChanges then
    setLines newLines ;;
    setShapes newShapes ;;
    addToHistory render newLines newShapes ;;
    emit (EmitUpdateBoard (roomId render) newLines newShapes)
  else skip.

(** ** Pointer and wheel handlers *)

(** [getMousePos] *)
Definition getMousePos (render : State) (e : MouseEvent.t) : Pos.t :=
  match canvasRect render with
  | None => Pos.mk 0 0
  | Some rect =>
      Geometry.screenToWorld (viewport render)
        (MouseEvent.clientX e - Rect.left rect)
        (MouseEvent.clientY e - Rect.top rect)
  end.

Definition isShapeTool (t : string) : bool :=
  String.eqb t "rectangle" || String.eqb t "circle".

(** [handleMouseDown] *)
Definition handleMouseDown (e : MouseEvent.t) : Handler := fun render =>
  if (MouseEvent.button e =? 1)%Z || (MouseEvent.button e =? 2)%Z then render
  else if (MouseEvent.button e =? 0)%Z then
    if String.eqb (selectedTool render) "pan" then
      (setIsPanning true ;;
       setLastPanPos (Some (Pos.mk (MouseEvent.clientX e) (MouseEvent.clientY e))))
        render
    else
      let pos := getMousePos render e in
      (setIsDrawingRef true ;;
       setStartPos (Some pos) ;;
       (if String.eqb (selectedTool render) "pen" then
          updLines (fun prev =>
            prev ++ [Line.mk [Pos.x pos; Pos.y pos] "pen"
                       (selectedColor render) (selectedLineWidth render)])
        else if String.eqb (selectedTool render) "eraser" then
          eraseAtPoint render (Pos.x pos) (Pos.y pos)
        else if isShapeTool (selectedTool render) then
          updShapes (fun prev =>
            prev ++ [Shape.mk (selectedTool render) (Pos.x pos) (Pos.y pos) 0 0
                       (selectedTool render)])
        else skip)) render
  else render.

(** The updater of [setLines] in [handleMouseMove] (pen). *)
Definition extendLastLine (pos : Pos.t) (prev : list Line.t) : list Line.t :=
  match JsArray.lastElem prev with
  | None => prev
  | Some lastLine =>
      let updatedLine :=
        Line.mk (Line.points lastLine ++ [Pos.x pos; Pos.y pos])
                (Line.tool lastLine) (Line.color lastLine) (Line.lineWidth lastLine) in
      JsArray.slice0 prev (-1) ++ [updatedLine]
  end.

(** The updater of [setShapes] in [handleMouseMove] (rectangle, circle);
    [start] is [startPos.current!]. *)
Definition resizeLastShape (pos start : Pos.t) (prev : list Shape.t) : list Shape.t :=
  if (length prev =? 0)%nat then prev
  else
    match JsArray.lastElem prev with
    | None => prev
    | Some lastShape =>
        let updatedShape :=
          Shape.mk (Shape.type lastShape) (Shape.x lastShape) (Shape.y lastShape)
                   (Pos.x pos - Pos.x start) (Pos.y pos - Pos.y start)
                   (Shape.tool lastShape) in
        JsArray.slice0 prev (-1) ++ [updatedShape]
    end.

(** [handleMouseMove] *)
Definition handleMouseMove (e : MouseEvent.t) : Handler := fun render =>
  match isPanning render, lastPanPos render with
  | true, Some last =>
      let deltaX := MouseEvent.clientX e - Pos.x last in
      let deltaY := MouseEvent.clientY e - Pos.y last in
      (updViewport (fun prev =>
         Viewport.mk (Viewport.x prev + deltaX) (Viewport.y prev + deltaY)
                     (Viewport.scale prev)) ;;
       setLastPanPos (Some (Pos.mk (MouseEvent.clientX e) (MouseEvent.clientY e))))
        render
  | _, _ =>
      match isDrawingRef render, startPos render with
      | true, Some start =>
          let pos := getMousePos render e in
          if String.eqb (selectedTool render) "pen" then
            updLines (extendLastLine pos) render
          else if String.eqb (selectedTool render) "eraser" then
            eraseAtPoint render (Pos.x pos) (Pos.y pos) render
          else if isShapeTool (selectedTool render) then
            updShapes (resizeLastShape pos start) render
          else render
      | _, _ => render
      end
  end.

(** [handleMouseUp] *)
Definition handleMouseUp : Handler := fun render =>
  if isPanning render then
    (setIsPanning false ;; setLastPanPos None) render
  else if negb (isDrawingRef render) then render
  else
    (setIsDrawingRef false ;;
     (if String.eqb (selectedTool render) "pen" then
        match JsArray.lastElem (lines render) with
        | Some lastStroke =>
            if JsArray.nonEmpty (Line.points lastStroke) then
              emit (EmitDraw (roomId render) (OfLine lastStroke)) ;;
              addToHistory render (lines render) (shapes render)
            else skip
        | None => skip
        end
      else if isShapeTool (selectedTool render) then
        match JsArray.lastElem (shapes render) with
        | Some lastShape =>
            emit (EmitDraw (roomId render) (OfShape lastShape)) ;;
            addToHistory render (lines render) (shapes render)
        | None => skip
        end
      else skip)) render.

(** [handleWheel] *)
Definition handleWheel (e : WheelEvent.t) : Handler := fun render =>
  match canvasRect render with
  | None => render
  | Some rect =>
      let mouseX := WheelEvent.clientX e - Rect.left rect in
      let mouseY := WheelEvent.clientY e - Rect.top rect in
      updViewport (Geometry.zoomAt (WheelEvent.deltaY e) mouseX mouseY) render
  end.

(** [resetView] *)
Definition resetView : Handler := setViewport (Viewport.mk 0 0 1).

(** ** Inbound socket events *)

(** [socket.on("loadBoard", ...)] *)
Definition onLoadBoard (data : LoadBoardData) : Handler :=
  match data with
  | LoadArray data =>
      setLines data ;;
      setShapes [] ;;
      setHistory [Snapshot.empty; Snapshot.mk data []] ;;
      setHistoryIndex 1%Z
  | LoadObject dataLines dataShapes =>
      let newLines := match dataLines with Some l => l | None => [] end in
      let newShapes := match dataShapes with Some l => l | None => [] end in
      setLines newLines ;;
      setShapes newShapes ;;
      setHistory [Snapshot.empty; Snapshot.mk newLines newShapes] ;;
      setHistoryIndex 1%Z
  end.

(** [socket.on("draw", ...)].  A [LineData] has a [points] array, which is
    truthy even when empty; a [ShapeData] has none and is tested on its
    [type]. *)
Definition onDraw (data : DrawData) : Handler :=
  let payload :=
    match data with
    | DrawEnvelope _ strokeData => strokeData
    | DrawBare payload => payload
    end in
  match payload with
  | OfLine line => updLines (fun prev => prev ++ [line])
  | OfShape shape =>
      if String.eqb (Shape.type shape) "rectangle"
         || String.eqb (Shape.type shape) "circle"
      then updShapes (fun prev => prev ++ [shape])
      else skip
  end.

(** [socket.on("clearBoard", ...)] *)
Definition onClearBoard : Handler :=
  setLines [] ;;
  setShapes [] ;;
  setHistory [Snapshot.empty] ;;
  setHistoryIndex 0%Z.

(** [socket.on("updateBoard", ({ lines: newLines, shapes: newShapes }) => ...)] *)
Definition onUpdateBoard (newLines : list Line.t) (newShapes : list Shape.t) : Handler :=
  setLines newLines ;;
  setShapes newShapes.

(** ** The component as a transition system *)

(** What can happen to a mounted component: pointer and wheel input, the
    toolbar, a layout change of the canvas, and inbound socket events. *)
Inductive Action : Type :=
| MouseDown (e : MouseEvent.t)
| MouseMove (e : MouseEvent.t)
| MouseUp
| Wheel (e : WheelEvent.t)
| ResetView
| Undo
| Redo
| ClearCanvas
| SelectTool (tool : string)
| SelectColor (color : string)
| SelectLineWidth (lineWidth : R)
| Layout (rect : option Rect.t)
| LoadBoard (data : LoadBoardData)
| Draw (data : DrawData)
| ClearBoard
| UpdateBoard (newLines : list Line.t) (newShapes : list Shape.t).

Definition dispatch (a : Action) : Handler :=
  match a with
  | MouseDown e => handleMouseDown e
  | MouseMove e => handleMouseMove e
  | MouseUp => handleMouseUp
  | Wheel e => handleWheel e
  | ResetView => resetView
  | Undo => undo
  | Redo => redo
  | ClearCanvas => clearCanvas
  | SelectTool tool => setSelectedTool tool
  | SelectColor color => setSelectedColor color
  | SelectLineWidth lineWidth => setSelectedLineWidth lineWidth
  | Layout rect => setCanvasRect rect
  | LoadBoard data => onLoadBoard data
  | Draw data => onDraw data
  | ClearBoard => onClearBoard
  | UpdateBoard newLines newShapes => onUpdateBoard newLines newShapes
  end.

(** The state after a sequence of actions, oldest first. *)
Definition run (actions : list Action) (s : State) : State :=
  fold_left (fun s a => dispatch a s) actions s.

(** The states a component can be in. *)
Inductive reachable : State -> Prop :=
| reach_init (room : string) (rect : option Rect.t) :
    reachable (initialState room rect)
| reach_step (s : State) (a : Action) :
    reachable s -> reachable (dispatch a s).

(** ** The history invariant *)

(** [historyIndex] points into [history]. *)
Definition histInv (s : State) : Prop :=
  (0 <= historyIndex s <= Z.of_nat (length (history s)) - 1)%Z.

(** ** Reading the eraser's result *)

(** The points of a flat coordinate sequence; a lone trailing coordinate is
    not a point. *)
Fixpoint pointsOf (pts : list R) : list Pos.t :=
  match pts with
  | pointX :: pointY :: rest => Pos.mk pointX pointY :: pointsOf rest
  | _ => []
  end.

(** The point [p] lies outside the eraser circle of centre [(x, y)]. *)
Definition outside (x y eraserRadius : R) (p : Pos.t) : Prop :=
  eraserRadius < Eraser.distance (Pos.x p) (Pos.y p) x y.

(** Every point of the coordinate sequence [seg] lies outside the eraser
    circle. *)
Definition clearOf (x y eraserRadius : R) (seg : list R) : Prop :=
  Forall (outside x y eraserRadius) (pointsOf seg).

(** [seg] is made of whole points, all outside the eraser circle. *)
Definition wholeClearOf (x y eraserRadius : R) (seg : list R) : Prop :=
  Nat.even (length seg) = true /\ clearOf x y eraserRadius seg.

(** Following the spec's words for the rectangle test: [(x, y)] falls within
    the axis-aligned bounds of the rectangle expanded by [r] on all sides.
    The bounds of a rectangle anchored at [(sx, sy)] with signed width [w]
    and height [h] run from [min sx (sx + w)] to [max sx (sx + w)], and
    likewise in [y]. *)
Definition withinExpandedBounds (x y r : R) (shape : Shape.t) : Prop :=
  Rmin (Shape.x shape) (Shape.x shape + Shape.width shape) - r <= x
    <= Rmax (Shape.x shape) (Shape.x shape + Shape.width shape) + r /\
  Rmin (Shape.y shape) (Shape.y shape + Shape.height shape) - r <= y
    <= Rmax (Shape.y shape) (Shape.y shape + Shape.height shape) + r.

(** Following the spec's words for the circle test: the distance from
    [(x, y)] to the centre is at most the radius
    [sqrt (width^2 + height^2)] plus [r]. *)
Definition withinCircleReach (x y r : R) (shape : Shape.t) : Prop :=
  sqrt ((Shape.x shape - x) ^ 2 + (Shape.y shape - y) ^ 2)
  <= sqrt (Shape.width shape ^ 2 + Shape.height shape ^ 2) + r.

(** ** Pen gestures *)

(** The state in the middle of a pen gesture begun in [s0]: the stroke being
    drawn is the last of [lines] and has the numbers [pts]; nothing else of
    the board, the history or the socket has moved. *)
Definition drawing (s0 s : State) (pts : list R) : Prop :=
  lines s = lines s0 ++ [Line.mk pts "pen" (selectedColor s0) (selectedLineWidth s0)] /\
  shapes s = shapes s0 /\
  selectedTool s = "pen" /\
  isPanning s = false /\
  isDrawingRef s = true /\
  startPos s <> None /\
  history s = history s0 /\
  historyIndex s = historyIndex s0 /\
  emitted s = emitted s0 /\
  roomId s = roomId s0.

(** ** Sample inputs *)

Module Sample.

(** A mounted canvas whose top-left corner is the origin of the page. *)
Definition rect : Rect.t := Rect.mk 0 0.

Definition fresh : State := initialState "room-1" (Some rect).

(** The stroke [{points: [0,0,5,5], color: "#000000", lineWidth: 2}]. *)
Definition stroke0055 : Line.t := Line.mk [0; 0; 5; 5] "pen" "#000000" 2.

Definition wheelDown : WheelEvent.t := WheelEvent.mk 1 100 50.

Definition leftClick : MouseEvent.t := MouseEvent.mk 0 5 5.

(** The one-point stroke a click at [(5, 5)] leaves with the default pen. *)
Definition dot55 : Line.t := Line.mk [5; 5] "pen" "#000000" 2.

(** The board after a click with the pen on a fresh board. *)
Definition drawn : State := run [MouseDown leftClick; MouseUp] fresh.

(** The straight stroke through [(0,0)], [(10,0)] and [(20,0)]. *)
Definition straight : Line.t := Line.mk [0; 0; 10; 0; 20; 0] "pen" "#000000" 2.


(** A rectangle dragged from [(100, 100)] up and left to [(0, 0)]. *)
Definition dragged : Shape.t := Shape.mk "rectangle" 100 100 (-100) (-100) "rectangle".

(** A square and a circle around the origin. *)
Definition square : Shape.t := Shape.mk "rectangle" 0 0 10 10 "rectangle".

Definition disc : Shape.t := Shape.mk "circle" 0 0 3 4 "circle".

(** A board with one stroke and two shapes, at the default zoom, the eraser
    selected. *)
Definition busy : State :=
  mkState "room-1" [straight] [square; disc] "eraser" "#000000" 2
          [Snapshot.empty; Snapshot.mk [straight] [square; disc]] 1%Z
          (Viewport.mk 0 0 1) false false None None (Some rect) [].

(** A board that holds [dragged] only, at the default zoom. *)
Definition withDragged : State :=
  mkState "room-1" [] [dragged] "eraser" "#000000" 2
          [Snapshot.empty; Snapshot.mk [] [dragged]] 1%Z
          (Viewport.mk 0 0 1) false false None None (Some rect)
          [EmitDraw "room-1" (OfShape dragged)].

End Sample.

(** ** Presence *)

(** [interface User]; [lastSeen] is a [Date.now()] timestamp in
    milliseconds. *)
Module User.
Record t : Type := mk {
  id : string;
  name : string;
  color : string;
  cursor : option Pos.t;
  isActive : bool;
  lastSeen : Z
}.
End User.

(** The updaters the presence handlers pass to [setUsers]. *)
Module Presence.

(** [{ ...user, isActive: true }] *)
Definition activate (user : User.t) : User.t :=
  User.mk (User.id user) (User.name user) (User.color user) (User.cursor user)
          true (User.lastSeen user).

(** [u.id === id] *)
Definition hasId (id : string) (u : User.t) : bool := String.eqb (User.id u) id.

(** [socket.on("userJoined", ...)].  In [{ ...u, ...user, isActive: true }]
    every field of [u] is overridden by the field of [user], a [User], so the
    merged record is [user] made active. *)
Definition userJoined (user : User.t) (prev : list User.t) : list User.t :=
  match find (hasId (User.id user)) prev with
  | Some existing =>
      map (fun u => if hasId (User.id user) u then activate user else u) prev
  | None => prev ++ [activate user]
  end.

(** [socket.on("userLeft", ...)] *)
Definition userLeft (userId : string) (prev : list User.t) : list User.t :=
  filter (fun u => negb (hasId userId u)) prev.

(** [socket.on("cursorUpdate", ...)]; [now] is [Date.now()]. *)
Definition cursorUpdate (userId : string) (cursor : option Pos.t) (now : Z)
  (prev : list User.t) : list User.t :=
  map (fun u =>
         if hasId userId u
         then User.mk (User.id u) (User.name u) (User.color u) cursor true now
         else u)
      prev.

(** [socket.on("userList", ...)] *)
Definition userList (users : list User.t) : list User.t := map activate users.

(** The sweep of inactive users; [now] is [Date.now()]. *)
Definition sweep (now : Z) (prev : list User.t) : list User.t :=
  let timeout := 30000%Z in
  filter (fun user => (now - User.lastSeen user <? timeout)%Z) prev.

End Presence.

(** ** Grid *)

Module Grid.

(** [dimensions] *)
Record Dimensions : Type := mkDimensions { width : R; height : R }.

(** [startX], [endX], [startY] and [endY] of [drawGrid]. *)
Record Bounds : Type := mkBounds { startX : R; endX : R; startY : R; endY : R }.

Definition gridSize : R := 50.

(** [Math.floor] and [Math.ceil], as numbers. *)
Definition floor (v : R) : R := IZR (Zfloor v).
Definition ceil (v : R) : R := IZR (Zceil v).

(** The four bounds [drawGrid] computes before its loops. *)
Definition bounds (viewport : Viewport.t) (dimensions : Dimensions) : Bounds :=
  mkBounds
    (floor ((- Viewport.x viewport) / Viewport.scale viewport / gridSize) * gridSize)
    (ceil ((- Viewport.x viewport + width dimensions) / Viewport.scale viewport / gridSize)
       * gridSize)
    (floor ((- Viewport.y viewport) / Viewport.scale viewport / gridSize) * gridSize)
    (ceil ((- Viewport.y viewport + height dimensions) / Viewport.scale viewport / gridSize)
       * gridSize).

End Grid.

(** ** Drawing strokes and shapes *)

(** The calls [redraw] makes on the 2D context for strokes and shapes. *)
Module Redraw.

Inductive Op : Type :=
| SetStrokeStyle (style : string)
| SetLineWidth (lineWidth : R)
| BeginPath
| MoveTo (x y : R)
| LineTo (x y : R)
| LineToLone (x : R)
| Stroke
| StrokeRect (x y w h : R)
| Arc (x y radius startAngle endAngle : R).

(** [for (let i = 2; i < line.points.length; i += 2) context.lineTo(...)],
    over the numbers after the first point.  A lone trailing coordinate makes
    the call [lineTo(pointX, undefined)], which is [LineToLone pointX]. *)
Fixpoint lineTos (pts : list R) : list Op :=
  match pts with
  | pointX :: pointY :: rest => LineTo pointX pointY :: lineTos rest
  | [pointX] => [LineToLone pointX]
  | [] => []
  end.

(** The callback of [lines.forEach] in [redraw]: nothing for fewer than 2
    numbers, else a path from [(points[0], points[1])]; [||] replaces an
    empty colour and a zero width by the defaults. *)
Definition drawLine (line : Line.t) : list Op :=
  match Line.points line with
  | x0 :: y0 :: rest =>
      [SetStrokeStyle (if String.eqb (Line.color line) ""
                       then "#000000" else Line.color line);
       SetLineWidth (if Req_dec_T (Line.lineWidth line) 0
                     then 2 else Line.lineWidth line);
       BeginPath;
       MoveTo x0 y0]
      ++ lineTos rest ++ [Stroke]
  | _ => []
  end.

(** The callback of [shapes.forEach] in [redraw], closed over
    [selectedColor] and [selectedLineWidth]. *)
Definition drawShape (selectedColor : string) (selectedLineWidth : R)
  (shape : Shape.t) : list Op :=
  if String.eqb (Shape.type shape) "" then []
  else
    [SetStrokeStyle selectedColor; SetLineWidth selectedLineWidth]
    ++ (if String.eqb (Shape.type shape) "rectangle" then
          [StrokeRect (Shape.x shape) (Shape.y shape)
                      (Shape.width shape) (Shape.height shape)]
        else if String.eqb (Shape.type shape) "circle" then
          let radius :=
            sqrt (Shape.width shape * Shape.width shape
                  + Shape.height shape * Shape.height shape) in
          [BeginPath; Arc (Shape.x shape) (Shape.y shape) radius 0 (2 * PI); Stroke]
        else []).

End Redraw.

(** ** Viewport invariant and pan gestures *)

(** The zoom stays within its clamp. *)
Definition scaleInv (s : State) : Prop :=
  0.1 <= Viewport.scale (viewport s) <= 5.

(** The state in the middle of a pan gesture begun in [s0] by a pointer-down
    at the client position [down], the pointer now being at [cur]: the
    viewport has moved by [cur - down], and nothing else of the board, the
    history or the socket has. *)
Definition panningFrom (s0 s : State) (down cur : Pos.t) : Prop :=
  isPanning s = true /\
  lastPanPos s = Some cur /\
  Viewport.x (viewport s) = Viewport.x (viewport s0) + (Pos.x cur - Pos.x down) /\
  Viewport.y (viewport s) = Viewport.y (viewport s0) + (Pos.y cur - Pos.y down) /\
  Viewport.scale (viewport s) = Viewport.scale (viewport s0) /\
  lines s = lines s0 /\
  shapes s = shapes s0 /\
  history s = history s0 /\
  historyIndex s = historyIndex s0 /\
  emitted s = emitted s0.

(** [{ x: e.clientX, y: e.clientY }] *)
Definition clientPos (e : MouseEvent.t) : Pos.t :=
  Pos.mk (MouseEvent.clientX e) (MouseEvent.clientY e).

(** ** Pen and shape gestures, in world coordinates *)

(** The flat coordinate sequence of the world positions of the pointer events
    [events], as the render [s] maps them. *)
Definition penPath (s : State) (events : list MouseEvent.t) : list R :=
  flat_map (fun e => [Pos.x (getMousePos s e); Pos.y (getMousePos s e)]) events.

(** The state in the middle of a shape gesture begun in [s0] at the world
    point [start]: the shape being drawn is the last of [shapes], with width
    [w] and height [h]; nothing else of the board, the view, the history or
    the socket has moved. *)
Definition shapingFrom (s0 s : State) (start : Pos.t) (w h : R) : Prop :=
  shapes s = shapes s0
             ++ [Shape.mk (selectedTool s0) (Pos.x start) (Pos.y start) w h
                   (selectedTool s0)] /\
  lines s = lines s0 /\
  selectedTool s = selectedTool s0 /\
  isPanning s = false /\
  isDrawingRef s = true /\
  startPos s = Some start /\
  viewport s = viewport s0 /\
  canvasRect s = canvasRect s0 /\
  history s = history s0 /\
  historyIndex s = historyIndex s0 /\
  emitted s = emitted s0 /\
  roomId s = roomId s0.

(** The width and height a shape gesture ends with: zero without a
    pointer-move, else the last pointer position minus the start. *)
Definition dragExtent (s : State) (down : MouseEvent.t) (moves : list MouseEvent.t)
  : R * R :=
  match moves with
  | [] => (0, 0)
  | _ :: _ =>
      (Pos.x (getMousePos s (last moves down)) - Pos.x (getMousePos s down),
       Pos.y (getMousePos s (last moves down)) - Pos.y (getMousePos s down))
  end.

(** ** Board and history in step *)

(** The board is the snapshot the history holds at [historyIndex]. *)
Definition synced (s : State) : Prop :=
  JsArray.index (history s) (historyIndex s)
  = Some (Snapshot.mk (lines s) (shapes s)).

(** The actions that come from the socket. *)
Definition inbound (a : Action) : bool :=
  match a with
  | LoadBoard _ | Draw _ | ClearBoard | UpdateBoard _ _ => true
  | _ => false
  end.

(** ** Reading the eraser's walk *)


(** Some point of [pts] lies within the eraser circle. *)
Fixpoint anyInside (x y eraserRadius : R) (pts : list R) : bool :=
  match pts with
  | pointX :: pointY :: rest =>
      Rleb (Eraser.distance pointX pointY x y) eraserRadius
      || anyInside x y eraserRadius rest
  | _ => false
  end.

(** The eraser looks at the stroke [line]: it has at least 4 numbers, one
    point of which lies within the circle. *)
Definition strokeHit (x y eraserRadius : R) (line : Line.t) : bool :=
  (4 <=? length (Line.points line))%nat
  && anyInside x y eraserRadius (Line.points line).

(** The point [p] lies within the eraser circle of centre [(x, y)]. *)
Definition inside (x y eraserRadius : R) (p : Pos.t) : Prop :=
  Eraser.distance (Pos.x p) (Pos.y p) x y <= eraserRadius.

(** The eraser at [(x, y)] touches the board: a stroke of at least 4 numbers
    has a point within the circle, or a shape passes the removal test. *)
Definition eraserHits (x y eraserRadius : R)
  (lines : list Line.t) (shapes : list Shape.t) : Prop :=
  Exists (fun line =>
            (4 <= length (Line.points line))%nat /\
            Exists (inside x y eraserRadius) (pointsOf (Line.points line)))
         lines
  \/ Exists (fun shape => Eraser.removesShape x y eraserRadius shape = true) shapes.

(** What one stroke leaves on the board after a pass. *)
Definition survivors (x y eraserRadius : R) (line : Line.t) : list Line.t :=
  if (length (Line.points line) <? 4)%nat then [line]
  else Eraser.fragments line
         (fst (Eraser.segmentsOf x y eraserRadius (Line.points line) false)).

(** More sample inputs. *)
Module Demo.

Definition panTool : State := setSelectedTool "pan" Sample.fresh.

Definition rectTool : State := setSelectedTool "rectangle" Sample.fresh.

Definition press : MouseEvent.t := MouseEvent.mk 0 10 10.

Definition dragTo : MouseEvent.t := MouseEvent.mk 0 40 25.

(** A stroke with one coordinate. *)
Definition lone : Line.t := Line.mk [7] "pen" "#000000" 2.


(** A stroke of two points and a lone trailing coordinate. *)
Definition ragged : Line.t := Line.mk [0; 0; 3; 4; 9] "pen" "" 0.

Definition alice : User.t := User.mk "a1" "User a1" "#FF6B6B" None true 1000.

Definition bob : User.t := User.mk "b2" "User b2" "#4ECDC4" None false 2000.

End Demo.

(** * Properties *)

(** ** Comparisons *)

Lemma Rleb_true (a b : R) : Rleb a b = true <-> a <= b.
Proof. unfold Rleb; destruct (Rle_dec a b); split; intros; easy. Qed.

Lemma Rleb_false (a b : R) : Rleb a b = false <-> b < a.
Proof.
  unfold Rleb; destruct (Rle_dec a b); split; intros; try easy; lra.
Qed.

Lemma Rltb_true (a b : R) : Rltb a b = true <-> a < b.
Proof. unfold Rltb; destruct (Rlt_dec a b); split; intros; easy. Qed.

Lemma Rltb_false (a b : R) : Rltb a b = false <-> b <= a.
Proof.
  unfold Rltb; destruct (Rlt_dec a b); split; intros; try easy; lra.
Qed.

(** ** Viewport transform *)

Lemma clamp_bounds (v : R) : 0.1 <= Rmax 0.1 (Rmin 5 v) <= 5.
Proof.
  unfold Rmax, Rmin.
  destruct (Rle_dec 5 v); destruct (Rle_dec 0.1 _); lra.
Qed.

Lemma zoomAt_scale (deltaY mouseX mouseY : R) (prev : Viewport.t) :
  Viewport.scale (Geometry.zoomAt deltaY mouseX mouseY prev)
  = Rmax 0.1 (Rmin 5 (Viewport.scale prev
                      * (if Rgtb deltaY 0 then 1 - 0.1 else 1 + 0.1))).
Proof. reflexivity. Qed.

(** C8.  For a viewport of positive scale, mapping a world point to the
    screen and back gives the point again: [screenToWorld] after
    [worldToScreen] is the identity (exactly, numbers being reals). *)
Theorem screenToWorld_worldToScreen (v : Viewport.t) (worldX worldY : R) :
  0 < Viewport.scale v ->
  Geometry.screenToWorld v
    (Pos.x (Geometry.worldToScreen v worldX worldY))
    (Pos.y (Geometry.worldToScreen v worldX worldY))
  = Pos.mk worldX worldY.
Proof.
  intros Hs. unfold Geometry.screenToWorld, Geometry.worldToScreen.
  cbn [Pos.x Pos.y]. f_equal; field; lra.
Qed.

Lemma screenToWorld_worldToScreen_witness :
  0 < Viewport.scale (Viewport.mk 30 (-20) 2) /\
  Geometry.screenToWorld (Viewport.mk 30 (-20) 2)
    (Pos.x (Geometry.worldToScreen (Viewport.mk 30 (-20) 2) 7 11))
    (Pos.y (Geometry.worldToScreen (Viewport.mk 30 (-20) 2) 7 11))
  = Pos.mk 7 11.
Proof.
  split.
  - cbn [Viewport.scale]. lra.
  - apply (screenToWorld_worldToScreen (Viewport.mk 30 (-20) 2) 7 11).
    cbn [Viewport.scale]. lra.
Defined.

(** C7.  A wheel event over a mounted canvas, on a viewport of positive
    scale: the new scale is [scale * (1 - 0.1)] (wheel down) or
    [scale * (1 + 0.1)] (otherwise) clamped to [0.1, 5], so it lies in
    [0.1, 5]; the translation is
    [pointer - (pointer - viewport) * (newScale / scale)]; and the world
    point under the pointer is the same before and after. *)
Theorem wheel_zoom_anchored (s : State) (e : WheelEvent.t) (rect : Rect.t) :
  canvasRect s = Some rect ->
  0 < Viewport.scale (viewport s) ->
  let mouseX := WheelEvent.clientX e - Rect.left rect in
  let mouseY := WheelEvent.clientY e - Rect.top rect in
  let old := viewport s in
  let new := viewport (handleWheel e s) in
  (0 < WheelEvent.deltaY e ->
   Viewport.scale new = Rmax 0.1 (Rmin 5 (Viewport.scale old * (1 - 0.1)))) /\
  (WheelEvent.deltaY e <= 0 ->
   Viewport.scale new = Rmax 0.1 (Rmin 5 (Viewport.scale old * (1 + 0.1)))) /\
  0.1 <= Viewport.scale new <= 5 /\
  Viewport.x new
  = mouseX - (mouseX - Viewport.x old) * (Viewport.scale new / Viewport.scale old) /\
  Viewport.y new
  = mouseY - (mouseY - Viewport.y old) * (Viewport.scale new / Viewport.scale old) /\
  Geometry.screenToWorld new mouseX mouseY = Geometry.screenToWorld old mouseX mouseY.
Proof.
  intros Hrect Hs mouseX mouseY old new.
  assert (Hnew : new = Geometry.zoomAt (WheelEvent.deltaY e) mouseX mouseY old).
  { unfold new, handleWheel. rewrite Hrect. reflexivity. }
  assert (Hb : 0.1 <= Viewport.scale new <= 5).
  { rewrite Hnew, zoomAt_scale. apply clamp_bounds. }
  repeat split; try apply Hb.
  - intros Hd. rewrite Hnew, zoomAt_scale.
    replace (Rgtb (WheelEvent.deltaY e) 0) with true; [reflexivity|].
    symmetry. apply Rltb_true. exact Hd.
  - intros Hd. rewrite Hnew, zoomAt_scale.
    replace (Rgtb (WheelEvent.deltaY e) 0) with false; [reflexivity|].
    symmetry. apply Rltb_false. exact Hd.
  - rewrite Hnew. reflexivity.
  - rewrite Hnew. reflexivity.
  - unfold Geometry.screenToWorld.
    assert (Hx : Viewport.x new = mouseX - (mouseX - Viewport.x old)
                   * (Viewport.scale new / Viewport.scale old))
      by (rewrite Hnew; reflexivity).
    assert (Hy : Viewport.y new = mouseY - (mouseY - Viewport.y old)
                   * (Viewport.scale new / Viewport.scale old))
      by (rewrite Hnew; reflexivity).
    rewrite Hx, Hy. clear Hx Hy Hnew.
    assert (Ho : 0 < Viewport.scale old) by exact Hs.
    destruct Hb as [Hb1 Hb2].
    generalize dependent (Viewport.scale new). intros ns Hb1 Hb2.
    f_equal; field; lra.
Qed.

Lemma wheel_zoom_anchored_witness :
  canvasRect Sample.fresh = Some Sample.rect /\
  0 < Viewport.scale (viewport Sample.fresh) /\
  0.1 <= Viewport.scale (viewport (handleWheel Sample.wheelDown Sample.fresh)) <= 5 /\
  Geometry.screenToWorld (viewport (handleWheel Sample.wheelDown Sample.fresh))
    (WheelEvent.clientX Sample.wheelDown - Rect.left Sample.rect)
    (WheelEvent.clientY Sample.wheelDown - Rect.top Sample.rect)
  = Geometry.screenToWorld (viewport Sample.fresh)
      (WheelEvent.clientX Sample.wheelDown - Rect.left Sample.rect)
      (WheelEvent.clientY Sample.wheelDown - Rect.top Sample.rect).
Proof.
  assert (Hr : canvasRect Sample.fresh = Some Sample.rect) by reflexivity.
  assert (Hs : 0 < Viewport.scale (viewport Sample.fresh)).
  { cbn [Sample.fresh initialState viewport Viewport.scale]. lra. }
  split; [exact Hr|]. split; [exact Hs|].
  pose proof (wheel_zoom_anchored Sample.fresh Sample.wheelDown Sample.rect Hr Hs) as H.
  cbv zeta in H. split; apply H.
Defined.

(** ** State bookkeeping *)

Ltac break_match :=
  repeat match goal with
    | |- context [if ?c then _ else _] => destruct c eqn:?
    | |- context [match ?x with _ => _ end] => destruct x eqn:?
    end.

Ltac state_simpl :=
  cbn [andThen skip updLines updShapes setLines setShapes setSelectedTool
       setSelectedColor setSelectedLineWidth setHistory setHistoryIndex
       updViewport setViewport setIsPanning setIsDrawingRef setStartPos
       setLastPanPos setCanvasRect emit addToHistory
       roomId lines shapes selectedTool selectedColor selectedLineWidth history
       historyIndex viewport isPanning isDrawingRef startPos lastPanPos
       canvasRect emitted] in *.

(** ** Arrays *)

Lemma slice0_firstn {A : Type} (arr : list A) (e : Z) :
  (0 <= e <= Z.of_nat (length arr))%Z ->
  JsArray.slice0 arr e = firstn (Z.to_nat e) arr.
Proof.
  intros He. unfold JsArray.slice0.
  destruct (Z.ltb_spec e 0); [lia|].
  f_equal. lia.
Qed.

Lemma slice0_drop_last {A : Type} (arr : list A) (a : A) :
  JsArray.slice0 (arr ++ [a]) (-1) = arr.
Proof.
  unfold JsArray.slice0. cbn [Z.ltb Z.compare].
  rewrite length_app. cbn [length].
  replace (Z.to_nat (Z.max (Z.of_nat (length arr + 1) + -1) 0)) with (length arr) by lia.
  rewrite firstn_app, firstn_all, Nat.sub_diag. cbn [firstn]. apply app_nil_r.
Qed.

Lemma lastElem_snoc {A : Type} (arr : list A) (a : A) :
  JsArray.lastElem (arr ++ [a]) = Some a.
Proof.
  unfold JsArray.lastElem, JsArray.index. rewrite length_app. cbn [length].
  destruct (Z.ltb_spec (Z.of_nat (length arr + 1) - 1) 0); [lia|].
  replace (Z.to_nat (Z.of_nat (length arr + 1) - 1)) with (length arr) by lia.
  rewrite nth_error_app2 by lia. rewrite Nat.sub_diag. reflexivity.
Qed.

(** ** History *)

Lemma dispatch_histInv (a : Action) (s : State) :
  histInv s -> histInv (dispatch a s).
Proof.
  unfold histInv. intros H.
  destruct a; cbn [dispatch];
    unfold handleMouseDown, handleMouseMove, handleMouseUp, handleWheel, resetView,
      undo, redo, clearCanvas, onLoadBoard, onDraw, onClearBoard, onUpdateBoard,
      eraseAtPoint;
    break_match; state_simpl;
    try assumption;
    try (rewrite ?length_app; cbn [length]; lia).
Qed.

Lemma reachable_histInv (s : State) : reachable s -> histInv s.
Proof.
  induction 1 as [room rect | s a _ IH].
  - unfold histInv. cbn [initialState history historyIndex length]. lia.
  - apply dispatch_histInv, IH.
Qed.

Lemma undo_at_zero (s : State) : historyIndex s = 0%Z -> undo s = s.
Proof. intros H. unfold undo. rewrite H. reflexivity. Qed.

Lemma redo_at_last (s : State) :
  historyIndex s = (Z.of_nat (length (history s)) - 1)%Z -> redo s = s.
Proof. intros H. unfold redo. rewrite H, Z.ltb_irrefl. reflexivity. Qed.

Lemma addToHistory_truncates (s : State) (newLines : list Line.t) (newShapes : list Shape.t) :
  histInv s ->
  history (addToHistory s newLines newShapes s)
  = firstn (Z.to_nat (historyIndex s + 1)) (history s)
      ++ [Snapshot.mk newLines newShapes]
  /\ historyIndex (addToHistory s newLines newShapes s) = (historyIndex s + 1)%Z.
Proof.
  unfold histInv. intros H. state_simpl.
  rewrite slice0_firstn by lia. split; [reflexivity|].
  rewrite length_app, length_firstn. cbn [length]. lia.
Qed.

(** C3.  In every state the component can reach: [undo] at index 0 changes
    nothing; [redo] at the last index changes nothing; [addToHistory] keeps
    the entries [0 .. historyIndex], appends the new snapshot and moves the
    index to that last slot, so that a commit after an undo drops every entry
    from the old index on; and the index lies in [0, length - 1]. *)
Theorem history_bounds (s : State) :
  reachable s ->
  (historyIndex s = 0%Z -> undo s = s) /\
  (historyIndex s = (Z.of_nat (length (history s)) - 1)%Z -> redo s = s) /\
  (forall newLines newShapes,
     let s' := addToHistory s newLines newShapes s in
     history s' = firstn (Z.to_nat (historyIndex s + 1)) (history s)
                    ++ [Snapshot.mk newLines newShapes] /\
     historyIndex s' = (historyIndex s + 1)%Z /\
     historyIndex s' = (Z.of_nat (length (history s')) - 1)%Z) /\
  (forall newLines newShapes,
     (0 < historyIndex s)%Z ->
     let u := undo s in
     let s' := addToHistory u newLines newShapes u in
     historyIndex u = (historyIndex s - 1)%Z /\
     history s' = firstn (Z.to_nat (historyIndex s)) (history s)
                    ++ [Snapshot.mk newLines newShapes] /\
     historyIndex s' = historyIndex s) /\
  (0 <= historyIndex s <= Z.of_nat (length (history s)) - 1)%Z.
Proof.
  intros Hr. pose proof (reachable_histInv s Hr) as Hinv.
  split; [apply undo_at_zero|]. split; [apply redo_at_last|].
  split; [|split; [|exact Hinv]].
  - intros newLines newShapes s'.
    destruct (addToHistory_truncates s newLines newShapes Hinv) as [Hh Hi].
    split; [exact Hh|]. split; [exact Hi|].
    unfold s'. state_simpl. reflexivity.
  - intros newLines newShapes Hpos u s'.
    assert (Hu : history u = history s /\ historyIndex u = (historyIndex s - 1)%Z).
    { unfold u, undo. destruct (Z.ltb_spec 0 (historyIndex s)); [|lia].
      destruct (JsArray.index (history s) (historyIndex s - 1)) eqn:Hidx.
      - state_simpl. split; reflexivity.
      - exfalso. unfold JsArray.index in Hidx. unfold histInv in Hinv.
        destruct (Z.ltb_spec (historyIndex s - 1) 0); [lia|].
        apply nth_error_None in Hidx. lia. }
    destruct Hu as [Hu1 Hu2].
    assert (Hinvu : histInv u) by (unfold histInv in *; rewrite Hu1, Hu2; lia).
    destruct (addToHistory_truncates u newLines newShapes Hinvu) as [Hh Hi].
    split; [exact Hu2|]. unfold s'. rewrite Hh, Hi, Hu1, Hu2.
    split; [|lia]. do 2 f_equal. lia.
Qed.

Lemma history_bounds_witness :
  reachable Sample.drawn /\
  (0 < historyIndex Sample.drawn)%Z /\
  redo Sample.drawn = Sample.drawn /\
  historyIndex (undo Sample.drawn) = 0%Z /\
  history (addToHistory (undo Sample.drawn) [] [] (undo Sample.drawn))
  = [Snapshot.empty; Snapshot.mk [] []] /\
  (0 <= historyIndex Sample.drawn
     <= Z.of_nat (length (history Sample.drawn)) - 1)%Z.
Proof.
  assert (Hr : reachable Sample.drawn).
  { unfold Sample.drawn, run. cbn [fold_left].
    do 2 apply reach_step. apply reach_init. }
  assert (Hp : (0 < historyIndex Sample.drawn)%Z) by reflexivity.
  pose proof (history_bounds Sample.drawn Hr) as (_ & Hd & _ & Hc & Hb).
  split; [exact Hr|]. split; [exact Hp|].
  split; [apply Hd; reflexivity|].
  destruct (Hc [] [] Hp) as (Hu & Hh & _).
  split; [exact Hu|]. split; [exact Hh|]. exact Hb.
Defined.

(** ** Inbound events *)

(** C10.  An inbound [updateBoard] replaces [lines] and [shapes] by those of
    the payload and leaves [history] and [historyIndex] as they were; nothing
    is emitted. *)
Theorem updateBoard_leaves_history
  (s : State) (newLines : list Line.t) (newShapes : list Shape.t) :
  lines (onUpdateBoard newLines newShapes s) = newLines /\
  shapes (onUpdateBoard newLines newShapes s) = newShapes /\
  history (onUpdateBoard newLines newShapes s) = history s /\
  historyIndex (onUpdateBoard newLines newShapes s) = historyIndex s /\
  emitted (onUpdateBoard newLines newShapes s) = emitted s.
Proof. unfold onUpdateBoard. state_simpl. repeat split. Qed.

(** C2, as the spec words it, fails: after the inbound [draw] of the stroke
    [[0,0,5,5]] on a fresh board the history still has one entry. *)
Lemma inbound_draw_history_not_two :
  ~ (lines (onDraw (DrawEnvelope (Some "room-1") (OfLine Sample.stroke0055))
                   Sample.fresh) = [Sample.stroke0055] /\
     length (history (onDraw (DrawEnvelope (Some "room-1") (OfLine Sample.stroke0055))
                             Sample.fresh)) = 2%nat).
Proof.
  intros [_ H]. cbn [onDraw] in H. state_simpl.
  cbn [Sample.fresh initialState history length] in H. discriminate.
Qed.

(** C2, amended.  From a fresh board (history: the empty snapshot, index 0),
    an inbound [draw] carrying the stroke [[0,0,5,5]], in an envelope or
    bare, makes [lines] exactly that stroke and leaves [shapes], [history]
    (one entry, the empty snapshot) and [historyIndex] (0) unchanged, and
    emits nothing. *)
Theorem inbound_draw_appends_only
  (room : string) (rect : option Rect.t) (envelopeRoom : option string) :
  let s0 := initialState room rect in
  forall data,
    In data [DrawEnvelope envelopeRoom (OfLine Sample.stroke0055);
             DrawBare (OfLine Sample.stroke0055)] ->
    lines (onDraw data s0) = [Sample.stroke0055] /\
    shapes (onDraw data s0) = [] /\
    history (onDraw data s0) = [Snapshot.empty] /\
    length (history (onDraw data s0)) = 1%nat /\
    historyIndex (onDraw data s0) = 0%Z /\
    emitted (onDraw data s0) = [].
Proof.
  intros s0 data [<- | [<- | []]]; cbn [onDraw]; state_simpl;
    repeat split.
Qed.

Lemma inbound_draw_appends_only_witness :
  lines (onDraw (DrawBare (OfLine Sample.stroke0055)) Sample.fresh)
  = [Sample.stroke0055] /\
  length (history (onDraw (DrawBare (OfLine Sample.stroke0055)) Sample.fresh)) = 1%nat.
Proof.
  pose proof (inbound_draw_appends_only "room-1" (Some Sample.rect) None
                (DrawBare (OfLine Sample.stroke0055))) as H.
  cbv zeta in H.
  destruct H as [H1 [_ [_ [H2 _]]]].
  - right. left. reflexivity.
  - split; [exact H1 | exact H2].
Defined.

(** ** Pen gestures *)

Lemma mouseDown_pen (s : State) (e : MouseEvent.t) :
  selectedTool s = "pen" -> isPanning s = false -> MouseEvent.button e = 0%Z ->
  drawing s (handleMouseDown e s)
    [Pos.x (getMousePos s e); Pos.y (getMousePos s e)].
Proof.
  intros Ht Hp Hb. unfold handleMouseDown. rewrite Hb, Ht.
  cbn [Z.eqb orb String.eqb Ascii.eqb Bool.eqb]. state_simpl.
  unfold drawing. state_simpl. repeat split; try assumption. discriminate.
Qed.

Lemma mouseMove_pen (s0 s : State) (pts : list R) (e : MouseEvent.t) :
  drawing s0 s pts ->
  drawing s0 (handleMouseMove e s)
    (pts ++ [Pos.x (getMousePos s e); Pos.y (getMousePos s e)]).
Proof.
  intros (Hl & Hsh & Ht & Hp & Hd & Hst & Hh & Hi & He & Hr).
  unfold handleMouseMove. rewrite Hp, Hd, Ht.
  destruct (startPos s) as [start|] eqn:Hs; [|congruence].
  cbn [String.eqb Ascii.eqb Bool.eqb].
  replace (match lastPanPos s with
           | Some _ | _ => updLines (extendLastLine (getMousePos s e)) s end)
    with (updLines (extendLastLine (getMousePos s e)) s)
    by (destruct (lastPanPos s); reflexivity).
  unfold drawing. state_simpl. rewrite Hl.
  unfold extendLastLine. rewrite lastElem_snoc, slice0_drop_last.
  cbn [Line.points Line.tool Line.color Line.lineWidth].
  repeat split; try assumption. congruence.
Qed.

Lemma mouseMoves_pen (moves : list MouseEvent.t) (s0 s : State) (pts : list R) :
  drawing s0 s pts ->
  exists pts',
    drawing s0 (run (map MouseMove moves) s) pts' /\
    length pts' = (length pts + 2 * length moves)%nat.
Proof.
  revert s pts. induction moves as [|e moves IH]; intros s pts Hd.
  - exists pts. split; [exact Hd|]. cbn [length]. lia.
  - cbn [map]. unfold run. cbn [fold_left dispatch].
    destruct (IH _ _ (mouseMove_pen s0 s pts e Hd)) as (pts' & Hd' & Hlen).
    exists pts'. split; [exact Hd'|].
    rewrite Hlen, length_app. cbn [length]. lia.
Qed.

Lemma mouseUp_pen (s0 s : State) (pts : list R) :
  drawing s0 s pts -> pts <> [] ->
  let stroke := Line.mk pts "pen" (selectedColor s0) (selectedLineWidth s0) in
  lines (handleMouseUp s) = lines s0 ++ [stroke] /\
  shapes (handleMouseUp s) = shapes s0 /\
  emitted (handleMouseUp s) = emitted s0 ++ [EmitDraw (roomId s0) (OfLine stroke)] /\
  history (handleMouseUp s)
  = JsArray.slice0 (history s0) (historyIndex s0 + 1)
      ++ [Snapshot.mk (lines s0 ++ [stroke]) (shapes s0)] /\
  historyIndex (handleMouseUp s)
  = (Z.of_nat (length (history (handleMouseUp s))) - 1)%Z.
Proof.
  intros (Hl & Hsh & Ht & Hp & Hd & Hst & Hh & Hi & He & Hr) Hne stroke.
  unfold handleMouseUp. rewrite Hp, Hd, Ht.
  cbn [negb String.eqb Ascii.eqb Bool.eqb]. state_simpl.
  rewrite Hl, lastElem_snoc. cbn [Line.points].
  destruct pts as [|p pts]; [congruence|]. cbn [JsArray.nonEmpty].
  state_simpl. rewrite Hl, Hsh, Hh, Hi, He, Hr. repeat split.
Qed.

(** C4, as the spec words it, fails: a click with the pen (pointer-down at
    [(5, 5)], pointer-up, no move) puts a stroke of one point on the board,
    in the history and on the wire. *)
Lemma click_commits_one_point_stroke :
  let s' := run [MouseDown Sample.leftClick; MouseUp] Sample.fresh in
  lines s' = [Sample.dot55] /\
  history s' = [Snapshot.empty; Snapshot.mk [Sample.dot55] []] /\
  emitted s' = [EmitDraw "room-1" (OfLine Sample.dot55)] /\
  ~ (4 <= length (Line.points Sample.dot55))%nat.
Proof.
  assert (Hpos : getMousePos Sample.fresh Sample.leftClick = Pos.mk 5 5).
  { unfold getMousePos, Geometry.screenToWorld.
    cbn [Sample.fresh initialState canvasRect viewport Sample.rect Sample.leftClick
         MouseEvent.clientX MouseEvent.clientY Rect.left Rect.top
         Viewport.x Viewport.y Viewport.scale].
    f_equal; field. }
  pose proof (mouseDown_pen Sample.fresh Sample.leftClick
                eq_refl eq_refl eq_refl) as Hd.
  rewrite Hpos in Hd. cbn [Pos.x Pos.y] in Hd.
  destruct (mouseUp_pen _ _ _ Hd) as (H1 & _ & H3 & H4 & _); [discriminate|].
  unfold run. cbn [fold_left dispatch].
  split; [exact H1|]. split; [exact H4|]. split; [exact H3|].
  cbn [Sample.dot55 Line.points length]. lia.
Qed.

(** C4, amended.  A pen gesture (pointer-down with the left button, [k]
    pointer-moves, pointer-up) commits one stroke of [k + 1] points, that is
    [2 * (k + 1)] numbers: it is the last of [lines], it is sent in one
    [draw] event, and the board with it becomes the new last history entry.
    A committed stroke so has at least one point, and at least two exactly
    when the pointer moved. *)
Theorem pen_gesture_commit
  (s : State) (down : MouseEvent.t) (moves : list MouseEvent.t) :
  selectedTool s = "pen" ->
  isPanning s = false ->
  MouseEvent.button down = 0%Z ->
  let s' := run (MouseDown down :: map MouseMove moves ++ [MouseUp]) s in
  exists stroke,
    lines s' = lines s ++ [stroke] /\
    length (Line.points stroke) = (2 * (length moves + 1))%nat /\
    (2 <= length (Line.points stroke))%nat /\
    ((4 <= length (Line.points stroke))%nat <-> moves <> []) /\
    emitted s' = emitted s ++ [EmitDraw (roomId s) (OfLine stroke)] /\
    history s' = JsArray.slice0 (history s) (historyIndex s + 1)
                   ++ [Snapshot.mk (lines s') (shapes s')] /\
    historyIndex s' = (Z.of_nat (length (history s')) - 1)%Z.
Proof.
  intros Ht Hp Hb s'.
  pose proof (mouseDown_pen s down Ht Hp Hb) as Hd.
  destruct (mouseMoves_pen moves _ _ _ Hd) as (pts & Hd' & Hlen).
  cbn [length] in Hlen.
  assert (Hne : pts <> []) by (intros ->; cbn [length] in Hlen; lia).
  destruct (mouseUp_pen _ _ _ Hd' Hne) as (H1 & H2 & H3 & H4 & H5).
  assert (Hs' : s' = handleMouseUp (run (map MouseMove moves) (handleMouseDown down s))).
  { unfold s', run. cbn [fold_left dispatch]. rewrite fold_left_app. reflexivity. }
  rewrite Hs'.
  exists (Line.mk pts "pen" (selectedColor s) (selectedLineWidth s)).
  cbn [Line.points]. rewrite H1, H2.
  split; [reflexivity|]. split; [lia|]. split; [lia|].
  split; [|split; [exact H3|split; [exact H4|exact H5]]].
  split.
  - intros H4n ->. cbn [length] in Hlen. lia.
  - intros Hm. destruct moves; [congruence|]. cbn [length] in Hlen. lia.
Qed.

Lemma pen_gesture_commit_witness :
  selectedTool Sample.fresh = "pen" /\
  isPanning Sample.fresh = false /\
  MouseEvent.button Sample.leftClick = 0%Z /\
  exists stroke,
    lines (run [MouseDown Sample.leftClick; MouseMove Sample.leftClick; MouseUp]
               Sample.fresh) = [stroke] /\
    length (Line.points stroke) = 4%nat.
Proof.
  split; [reflexivity|]. split; [reflexivity|]. split; [reflexivity|].
  destruct (pen_gesture_commit Sample.fresh Sample.leftClick [Sample.leftClick]
              eq_refl eq_refl eq_refl) as (stroke & H1 & H2 & _).
  exists stroke. split; [exact H1 | exact H2].
Defined.

(** ** Eraser: strokes *)

Lemma pairs_ind (P : list R -> Prop) :
  P [] ->
  (forall a, P [a]) ->
  (forall a b rest, P rest -> P (a :: b :: rest)) ->
  forall pts, P pts.
Proof.
  intros Hnil Hone Hstep pts.
  assert (H : P pts /\ forall a, P (a :: pts)).
  { induction pts as [|b pts [IH1 IH2]].
    - split; [exact Hnil | exact Hone].
    - split; [apply IH2|]. intros a. apply Hstep, IH1. }
  apply H.
Qed.

Lemma visit_outside_hasChanges (coords : list R) (st : Eraser.Loop) :
  Eraser.hasChanges (Eraser.visit false coords st) = Eraser.hasChanges st.
Proof.
  unfold Eraser.visit. cbn [negb].
  destruct (Eraser.isInEraser st);
    [destruct (JsArray.nonEmpty (Eraser.currentSegment st))|]; reflexivity.
Qed.

(** A walk that meets no point within the radius leaves [hasChanges] as it
    found it. *)
Lemma walk_miss (x y r : R) (pts : list R) :
  Forall (outside x y r) (pointsOf pts) ->
  forall st, Eraser.hasChanges (Eraser.walk x y r pts st) = Eraser.hasChanges st.
Proof.
  induction pts as [| a | a b rest IH] using pairs_ind; intros Hout st.
  - reflexivity.
  - cbn [Eraser.walk]. apply visit_outside_hasChanges.
  - cbn [Eraser.walk]. cbn [pointsOf] in Hout.
    apply Forall_cons_iff in Hout. destruct Hout as [Ha Hrest].
    rewrite (IH Hrest).
    unfold outside in Ha. cbn [Pos.x Pos.y] in Ha.
    apply Rleb_false in Ha. rewrite Ha. apply visit_outside_hasChanges.
Qed.

Lemma eraseLine_miss (x y r : R) (line : Line.t) (newLines : list Line.t) (hc : bool) :
  Forall (outside x y r) (pointsOf (Line.points line)) ->
  snd (Eraser.eraseLine x y r (newLines, hc) line) = hc.
Proof.
  intros Hout. unfold Eraser.eraseLine.
  destruct (length (Line.points line) <? 4)%nat; [reflexivity|].
  unfold Eraser.segmentsOf. cbn [snd].
  rewrite (walk_miss x y r _ Hout). reflexivity.
Qed.

Lemma eraseLines_miss (x y r : R) (lines : list Line.t) :
  (forall line, In line lines -> Forall (outside x y r) (pointsOf (Line.points line))) ->
  forall acc,
    snd (fold_left (Eraser.eraseLine x y r) lines acc) = snd acc.
Proof.
  induction lines as [|line lines IH]; intros Hout acc; [reflexivity|].
  cbn [fold_left]. rewrite IH by (intros l Hl; apply Hout; right; exact Hl).
  destruct acc as [newLines hc]. apply eraseLine_miss. apply Hout. left. reflexivity.
Qed.

(** ** Eraser: shapes *)

(** [shapes.filter] keeps exactly the shapes its callback does not remove, and
    raises [hasChanges] when it removes one. *)
Lemma filterShape_fold (x y r : R) (shapes : list Shape.t) :
  forall kept hc,
    fold_left (Eraser.filterShape x y r) shapes (kept, hc)
    = (kept ++ filter (fun shape => negb (Eraser.removesShape x y r shape)) shapes,
       hc || existsb (Eraser.removesShape x y r) shapes).
Proof.
  induction shapes as [|shape shapes IH]; intros kept hc.
  - cbn [fold_left filter existsb]. rewrite app_nil_r, orb_false_r. reflexivity.
  - cbn [fold_left filter existsb Eraser.filterShape].
    destruct (Eraser.removesShape x y r shape); cbn [negb]; rewrite IH.
    + rewrite orb_true_r. reflexivity.
    + rewrite <- app_assoc. reflexivity.
Qed.

Lemma existsb_none {A : Type} (f : A -> bool) (l : list A) :
  (forall a, In a l -> f a = false) -> existsb f l = false.
Proof.
  intros H. destruct (existsb f l) eqn:E; [|reflexivity].
  apply existsb_exists in E. destruct E as (a & Ha & Hf).
  rewrite (H a Ha) in Hf. discriminate.
Qed.

Lemma pass_miss (x y r : R) (lines : list Line.t) (shapes : list Shape.t) :
  (forall line, In line lines -> Forall (outside x y r) (pointsOf (Line.points line))) ->
  (forall shape, In shape shapes -> Eraser.removesShape x y r shape = false) ->
  snd (Eraser.pass x y r lines shapes) = false.
Proof.
  intros Hl Hs. unfold Eraser.pass.
  pose proof (eraseLines_miss x y r lines Hl ([], false)) as H1.
  destruct (fold_left (Eraser.eraseLine x y r) lines ([], false)) as [newLines hc0].
  cbn [snd] in H1. subst hc0.
  rewrite filterShape_fold. cbn [snd orb].
  apply existsb_none, Hs.
Qed.

(** C5.  An eraser pass at [(x, y)] whose circle (radius
    [12 / viewport.scale]) contains no point of any stroke and removes no
    shape does nothing: the whole state, so [lines], [shapes], [history],
    [historyIndex] and the emitted events, is as before. *)
Theorem erase_miss_is_noop (render : State) (x y : R) :
  (forall line, In line (lines render) ->
     Forall (outside x y (12 / Viewport.scale (viewport render)))
            (pointsOf (Line.points line))) ->
  (forall shape, In shape (shapes render) ->
     Eraser.removesShape x y (12 / Viewport.scale (viewport render)) shape = false) ->
  forall pending, eraseAtPoint render x y pending = pending.
Proof.
  intros Hl Hs pending. unfold eraseAtPoint.
  pose proof (pass_miss x y _ _ _ Hl Hs) as H.
  destruct (Eraser.pass x y (12 / Viewport.scale (viewport render))
              (lines render) (shapes render)) as [[newLines newShapes] hc].
  cbn [snd] in H. subst hc. reflexivity.
Qed.

(** ** Evaluating comparisons on concrete numbers *)

Lemma lt_sqrt (r v : R) : 0 <= r -> r * r < v -> r < sqrt v.
Proof.
  intros Hr Hv. rewrite <- (sqrt_square r Hr) at 1.
  apply sqrt_lt_1_alt. split; nra.
Qed.

Lemma sqrt_le (v r : R) : 0 <= r -> v <= r * r -> sqrt v <= r.
Proof.
  intros Hr Hv. rewrite <- (sqrt_square r Hr).
  destruct (Rle_dec 0 v) as [H0|H0].
  - apply sqrt_le_1_alt. exact Hv.
  - rewrite (sqrt_neg_0 v) by lra. apply sqrt_pos.
Qed.

Lemma distance_outside (px py x y r : R) :
  0 <= r -> r * r < (px - x) ^ 2 + (py - y) ^ 2 ->
  Rleb (Eraser.distance px py x y) r = false.
Proof. intros Hr H. apply Rleb_false, lt_sqrt; assumption. Qed.

Lemma distance_inside (px py x y r : R) :
  0 <= r -> (px - x) ^ 2 + (py - y) ^ 2 <= r * r ->
  Rleb (Eraser.distance px py x y) r = true.
Proof. intros Hr H. apply Rleb_true, sqrt_le; assumption. Qed.

(** Decides the comparisons of a goal whose numbers are literals. *)
Ltac eval_cmp :=
  repeat match goal with
    | |- context [Rleb (Eraser.distance ?px ?py ?x ?y) ?r] =>
        first [ rewrite (distance_outside px py x y r) by lra
              | rewrite (distance_inside px py x y r) by lra ]
    | |- context [Rleb ?a ?b] =>
        first [ replace (Rleb a b) with true by (symmetry; apply Rleb_true; lra)
              | replace (Rleb a b) with false by (symmetry; apply Rleb_false; lra) ]
    end.

Ltac eraser_simpl :=
  cbn [Eraser.pass Eraser.eraseLine Eraser.segmentsOf Eraser.walk Eraser.visit
       Eraser.flush Eraser.fragments Eraser.longEnough Eraser.filterShape
       Eraser.removesShape Eraser.isTouching Eraser.circleTouched
       Eraser.segments Eraser.currentSegment Eraser.isInEraser Eraser.hasChanges
       JsArray.nonEmpty fold_left filter map app length Nat.ltb Nat.leb negb andb orb
       Line.points Line.tool Line.color Line.lineWidth
       Shape.type Shape.x Shape.y Shape.width Shape.height
       String.eqb Ascii.eqb Bool.eqb Rgeb fst snd].

Lemma erase_miss_is_noop_witness :
  (forall line, In line (lines Sample.busy) ->
     Forall (outside 50 200 (12 / Viewport.scale (viewport Sample.busy)))
            (pointsOf (Line.points line))) /\
  (forall shape, In shape (shapes Sample.busy) ->
     Eraser.removesShape 50 200 (12 / Viewport.scale (viewport Sample.busy)) shape
     = false) /\
  eraseAtPoint Sample.busy 50 200 Sample.busy = Sample.busy.
Proof.
  assert (Hr : 12 / Viewport.scale (viewport Sample.busy) = 12).
  { cbn [Sample.busy viewport Viewport.scale]. field. }
  assert (Hl : forall line, In line (lines Sample.busy) ->
     Forall (outside 50 200 (12 / Viewport.scale (viewport Sample.busy)))
            (pointsOf (Line.points line))).
  { rewrite Hr. intros line [<- | []].
    cbn [Sample.straight Line.points pointsOf].
    repeat constructor; unfold outside; cbn [Pos.x Pos.y];
      apply lt_sqrt; lra. }
  assert (Hs : forall shape, In shape (shapes Sample.busy) ->
     Eraser.removesShape 50 200 (12 / Viewport.scale (viewport Sample.busy)) shape
     = false).
  { rewrite Hr. intros shape [<- | [<- | []]].
    - unfold Sample.square. eraser_simpl.
      unfold Eraser.isTouching, Rgeb. eraser_simpl. eval_cmp. reflexivity.
    - unfold Sample.disc. eraser_simpl.
      unfold Eraser.circleTouched. eraser_simpl. apply Rleb_false.
      apply Rle_lt_trans with (5 + 12).
      + apply Rplus_le_compat_r. apply sqrt_le; lra.
      + apply lt_sqrt; lra. }
  split; [exact Hl|]. split; [exact Hs|].
  exact (erase_miss_is_noop Sample.busy 50 200 Hl Hs Sample.busy).
Defined.

(** ** Eraser: fragments *)

Lemma eraseLine_long (x y r : R) (line : Line.t) (newLines : list Line.t) (hc : bool) :
  (4 <= length (Line.points line))%nat ->
  Eraser.eraseLine x y r (newLines, hc) line
  = (newLines
       ++ Eraser.fragments line (fst (Eraser.segmentsOf x y r (Line.points line) hc)),
     snd (Eraser.segmentsOf x y r (Line.points line) hc)).
Proof.
  intros Hlen. unfold Eraser.eraseLine.
  destruct (Nat.ltb_spec (length (Line.points line)) 4); [lia|].
  destruct (Eraser.segmentsOf x y r (Line.points line) hc). reflexivity.
Qed.

Lemma in_fragments (line f : Line.t) (segs : list (list R)) :
  In f (Eraser.fragments line segs) ->
  In (Line.points f) segs /\
  (4 <= length (Line.points f))%nat /\
  Line.tool f = Line.tool line /\
  Line.color f = Line.color line /\
  Line.lineWidth f = Line.lineWidth line.
Proof.
  unfold Eraser.fragments. intros H.
  apply in_map_iff in H. destruct H as (seg & <- & Hseg).
  apply filter_In in Hseg. destruct Hseg as [Hin Hlong].
  cbn [Line.points Line.tool Line.color Line.lineWidth].
  unfold Eraser.longEnough in Hlong. apply Nat.leb_le in Hlong.
  repeat split; assumption.
Qed.







(** ** Eraser: what survives lies outside the circle *)

Lemma pointsOf_app (l l' : list R) :
  Nat.even (length l) = true -> pointsOf (l ++ l') = pointsOf l ++ pointsOf l'.
Proof.
  induction l as [| a | a b rest IH] using pairs_ind; intros Hev.
  - reflexivity.
  - discriminate.
  - cbn [app pointsOf]. rewrite IH by exact Hev. reflexivity.
Qed.

Lemma wholeClearOf_app (x y r : R) (l l' : list R) :
  wholeClearOf x y r l -> wholeClearOf x y r l' -> wholeClearOf x y r (l ++ l').
Proof.
  intros [He Hc] [He' Hc']. split.
  - rewrite length_app, Nat.even_add, He, He'. reflexivity.
  - unfold clearOf. rewrite pointsOf_app by exact He.
    apply Forall_app. split; assumption.
Qed.

Lemma wholeClearOf_nil (x y r : R) : wholeClearOf x y r [].
Proof. split; [reflexivity | constructor]. Qed.

(** The loop invariant: the closed segments and the open one hold whole
    points outside the circle. *)
Lemma visit_wholeClearOf (x y r : R) (inEraser : bool) (coords : list R) (st : Eraser.Loop) :
  Forall (wholeClearOf x y r) (Eraser.segments st) ->
  wholeClearOf x y r (Eraser.currentSegment st) ->
  (inEraser = false -> wholeClearOf x y r coords) ->
  Forall (wholeClearOf x y r) (Eraser.segments (Eraser.visit inEraser coords st)) /\
  wholeClearOf x y r (Eraser.currentSegment (Eraser.visit inEraser coords st)).
Proof.
  intros Hs Hc Hco.
  assert (Hflush : Forall (wholeClearOf x y r) (Eraser.segments st ++ [Eraser.currentSegment st])).
  { apply Forall_app. split; [exact Hs|]. constructor; [exact Hc | constructor]. }
  unfold Eraser.visit.
  destruct inEraser; cbn [negb];
    destruct (Eraser.isInEraser st); cbn [negb andb];
    destruct (JsArray.nonEmpty (Eraser.currentSegment st));
    cbn [Eraser.flush Eraser.segments Eraser.currentSegment app];
    split;
    try assumption;
    try apply wholeClearOf_nil;
    try (apply wholeClearOf_app; [assumption | apply Hco; reflexivity]);
    try (apply Hco; reflexivity).
Qed.

Lemma walk_clearOf (x y r : R) (pts : list R) :
  forall st,
    Forall (wholeClearOf x y r) (Eraser.segments st) ->
    wholeClearOf x y r (Eraser.currentSegment st) ->
    Forall (clearOf x y r) (Eraser.segments (Eraser.walk x y r pts st)) /\
    clearOf x y r (Eraser.currentSegment (Eraser.walk x y r pts st)).
Proof.
  induction pts as [| a | a b rest IH] using pairs_ind; intros st Hs Hc.
  - cbn [Eraser.walk]. split; [|apply Hc].
    eapply Forall_impl; [|exact Hs]. intros seg H. apply H.
  - cbn [Eraser.walk]. unfold Eraser.visit. cbn [negb].
    assert (Hs' : Forall (clearOf x y r) (Eraser.segments st)).
    { eapply Forall_impl; [|exact Hs]. intros seg H. apply H. }
    assert (Hlone : forall seg, wholeClearOf x y r seg -> clearOf x y r (seg ++ [a])).
    { intros seg [He Hcl]. unfold clearOf. rewrite pointsOf_app by exact He.
      cbn [pointsOf]. rewrite app_nil_r. exact Hcl. }
    destruct (Eraser.isInEraser st);
      [destruct (JsArray.nonEmpty (Eraser.currentSegment st))|];
      cbn [Eraser.flush Eraser.segments Eraser.currentSegment];
      split; try assumption; try (apply Hlone; assumption).
    + apply Forall_app. split; [exact Hs'|]. constructor; [apply Hc | constructor].
    + apply (Hlone []). apply wholeClearOf_nil.
  - cbn [Eraser.walk].
    destruct (visit_wholeClearOf x y r
                (Rleb (Eraser.distance a b x y) r) [a; b] st Hs Hc) as [Hs1 Hc1].
    { intros Hout. apply Rleb_false in Hout. split; [reflexivity|].
      unfold clearOf. cbn [pointsOf]. constructor; [exact Hout | constructor]. }
    apply IH; assumption.
Qed.

Lemma segmentsOf_clearOf (x y r : R) (pts : list R) (hc : bool) :
  Forall (clearOf x y r) (fst (Eraser.segmentsOf x y r pts hc)).
Proof.
  unfold Eraser.segmentsOf. cbn [fst].
  destruct (walk_clearOf x y r pts (Eraser.mkLoop [] [] false hc)) as [Hs Hc].
  - constructor.
  - apply wholeClearOf_nil.
  - destruct (JsArray.nonEmpty _); [|exact Hs].
    apply Forall_app. split; [exact Hs|]. constructor; [exact Hc | constructor].
Qed.

(** No fragment the eraser makes of a stroke holds a point within the
    radius. *)
Lemma fragments_outside (x y r : R) (line f : Line.t) (hc : bool) :
  In f (Eraser.fragments line (fst (Eraser.segmentsOf x y r (Line.points line) hc))) ->
  Forall (outside x y r) (pointsOf (Line.points f)).
Proof.
  intros Hf. apply in_fragments in Hf. destruct Hf as [Hin _].
  pose proof (segmentsOf_clearOf x y r (Line.points line) hc) as Hall.
  rewrite Forall_forall in Hall. apply (Hall _ Hin).
Qed.

(** ** The straight stroke of the spec *)

Lemma straight_segments (hc : bool) :
  Eraser.segmentsOf 10 0 3 (Line.points Sample.straight) hc
  = ([[0; 0]; [20; 0]], true).
Proof.
  unfold Eraser.segmentsOf. cbn [Sample.straight Line.points Eraser.walk].
  eval_cmp. reflexivity.
Qed.

Lemma straight_pass :
  Eraser.pass 10 0 3 [Sample.straight] [] = ([], [], true).
Proof.
  unfold Eraser.pass. cbn [fold_left].
  rewrite eraseLine_long
    by (cbn [Sample.straight Line.points length]; lia).
  rewrite straight_segments. reflexivity.
Qed.

(** C1, as the spec words it, fails: with radius 3 at [(10, 0)] the stroke
    through [(0,0)], [(10,0)], [(20,0)] does not leave two fragments. *)
Lemma straight_stroke_not_two_fragments :
  length (fst (fst (Eraser.pass 10 0 3 [Sample.straight] []))) <> 2%nat.
Proof. rewrite straight_pass. cbn [fst length]. discriminate. Qed.

(** C1, amended.  With radius 3 at [(10, 0)], the walk over the stroke
    through [(0,0)], [(10,0)], [(20,0)] classifies the three stored points
    only: it closes the segment [(0,0)] at the erased point [(10,0)] and
    ends with the segment [(20,0)]; both have one point and are dropped, so
    no fragment of the stroke survives, the pass reports a change, and no
    surviving stroke has a point within 3 of [(10, 0)]. *)
Theorem straight_stroke_vanishes :
  fst (Eraser.segmentsOf 10 0 3 (Line.points Sample.straight) false)
  = [[0; 0]; [20; 0]] /\
  Eraser.fragments Sample.straight
    (fst (Eraser.segmentsOf 10 0 3 (Line.points Sample.straight) false)) = [] /\
  Eraser.pass 10 0 3 [Sample.straight] [] = ([], [], true) /\
  Forall (fun f => Forall (outside 10 0 3) (pointsOf (Line.points f)))
         (fst (fst (Eraser.pass 10 0 3 [Sample.straight] []))).
Proof.
  rewrite straight_segments, straight_pass. cbn [fst].
  repeat split. constructor.
Qed.

(** ** Eraser: the shape tests *)

Lemma removesShape_rectangle (x y r : R) (shape : Shape.t) :
  Shape.type shape = "rectangle" ->
  Eraser.removesShape x y r shape = true <->
  Shape.x shape - r <= x <= Shape.x shape + Shape.width shape + r /\
  Shape.y shape - r <= y <= Shape.y shape + Shape.height shape + r.
Proof.
  intros Ht. unfold Eraser.removesShape, Eraser.isTouching, Rgeb. rewrite Ht.
  cbn [String.eqb Ascii.eqb Bool.eqb].
  rewrite !andb_true_iff, !Rleb_true. tauto.
Qed.

(** For a rectangle dragged down and right (width and height not negative)
    the code's test is the spec's. *)
Lemma removesShape_rectangle_forward (x y r : R) (shape : Shape.t) :
  Shape.type shape = "rectangle" ->
  0 <= Shape.width shape -> 0 <= Shape.height shape ->
  Eraser.removesShape x y r shape = true <-> withinExpandedBounds x y r shape.
Proof.
  intros Ht Hw Hh. rewrite (removesShape_rectangle x y r shape Ht).
  unfold withinExpandedBounds.
  rewrite !Rmin_left, !Rmax_right by lra. tauto.
Qed.

(** The code's circle test is the spec's, for any signed width and height. *)
Lemma removesShape_circle (x y r : R) (shape : Shape.t) :
  Shape.type shape = "circle" ->
  Eraser.removesShape x y r shape = true <-> withinCircleReach x y r shape.
Proof.
  intros Ht. unfold Eraser.removesShape, Eraser.circleTouched. rewrite Ht.
  cbn [String.eqb Ascii.eqb Bool.eqb]. apply Rleb_true.
Qed.

(** Removal is all or nothing: the shapes after a pass are the shapes before
    it that the test does not remove, unchanged and in order. *)
Lemma pass_shapes (x y r : R) (lines : list Line.t) (shapes : list Shape.t) :
  snd (fst (Eraser.pass x y r lines shapes))
  = filter (fun shape => negb (Eraser.removesShape x y r shape)) shapes.
Proof.
  unfold Eraser.pass.
  destruct (fold_left (Eraser.eraseLine x y r) lines ([], false)) as [newLines hc].
  rewrite filterShape_fold. reflexivity.
Qed.

Lemma dragged_radius : 12 / Viewport.scale (viewport Sample.withDragged) = 12.
Proof. cbn [Sample.withDragged viewport Viewport.scale]. field. Qed.

(** C6 at a rectangle of negative width and height.  The rectangle dragged
    from [(100, 100)] to [(0, 0)] covers [0, 100] x [0, 100]; the eraser at
    [(50, 50)], radius 12, is within its bounds, yet the code's test keeps
    the rectangle and the pass changes nothing. *)
Theorem dragged_rectangle_not_erased :
  withinExpandedBounds 50 50 12 Sample.dragged /\
  Eraser.removesShape 50 50 12 Sample.dragged = false /\
  eraseAtPoint Sample.withDragged 50 50 Sample.withDragged = Sample.withDragged /\
  shapes (eraseAtPoint Sample.withDragged 50 50 Sample.withDragged) = [Sample.dragged].
Proof.
  assert (Hkeep : Eraser.removesShape 50 50 12 Sample.dragged = false).
  { destruct (Eraser.removesShape 50 50 12 Sample.dragged) eqn:E; [|reflexivity].
    apply removesShape_rectangle in E; [|reflexivity].
    cbn [Sample.dragged Shape.x Shape.y Shape.width Shape.height] in E. lra. }
  assert (Hnoop : eraseAtPoint Sample.withDragged 50 50 Sample.withDragged
                  = Sample.withDragged).
  { unfold eraseAtPoint. rewrite dragged_radius.
    cbn [Sample.withDragged lines shapes Eraser.pass fold_left Eraser.filterShape].
    rewrite Hkeep. reflexivity. }
  split; [|split; [exact Hkeep|split; [exact Hnoop|]]].
  - unfold withinExpandedBounds.
    cbn [Sample.dragged Shape.x Shape.y Shape.width Shape.height].
    rewrite Rmin_right, Rmax_left by lra. lra.
  - rewrite Hnoop. reflexivity.
Qed.

(** The board of [Sample.withDragged] is one the component draws: select the
    rectangle tool and drag from [(100, 100)] to [(0, 0)]. *)
Lemma dragged_is_drawn :
  shapes (run [SelectTool "rectangle";
               MouseDown (MouseEvent.mk 0 100 100);
               MouseMove (MouseEvent.mk 0 0 0);
               MouseUp] Sample.fresh)
  = [Sample.dragged].
Proof.
  change (shapes (run [SelectTool "rectangle";
                       MouseDown (MouseEvent.mk 0 100 100);
                       MouseMove (MouseEvent.mk 0 0 0);
                       MouseUp] Sample.fresh))
    with [Shape.mk "rectangle" ((100 - 0 - 0) / 1) ((100 - 0 - 0) / 1)
            ((0 - 0 - 0) / 1 - (100 - 0 - 0) / 1)
            ((0 - 0 - 0) / 1 - (100 - 0 - 0) / 1) "rectangle"].
  unfold Sample.dragged. repeat f_equal; field.
Qed.

(** * Further properties *)

(** ** Viewport *)

(** For a viewport whose scale is not zero, mapping a screen point to the
    world and back gives the screen point again. *)
Theorem worldToScreen_screenToWorld (v : Viewport.t) (screenX screenY : R) :
  Viewport.scale v <> 0 ->
  Geometry.worldToScreen v
    (Pos.x (Geometry.screenToWorld v screenX screenY))
    (Pos.y (Geometry.screenToWorld v screenX screenY))
  = Pos.mk screenX screenY.
Proof.
  intros Hs. unfold Geometry.screenToWorld, Geometry.worldToScreen.
  cbn [Pos.x Pos.y]. f_equal; field; exact Hs.
Qed.

Lemma worldToScreen_screenToWorld_witness :
  Viewport.scale (Viewport.mk 30 (-20) 2) <> 0 /\
  Geometry.worldToScreen (Viewport.mk 30 (-20) 2)
    (Pos.x (Geometry.screenToWorld (Viewport.mk 30 (-20) 2) 7 11))
    (Pos.y (Geometry.screenToWorld (Viewport.mk 30 (-20) 2) 7 11))
  = Pos.mk 7 11.
Proof.
  assert (H : Viewport.scale (Viewport.mk 30 (-20) 2) <> 0).
  { cbn [Viewport.scale]. lra. }
  split; [exact H|].
  exact (worldToScreen_screenToWorld (Viewport.mk 30 (-20) 2) 7 11 H).
Defined.

Lemma dispatch_scaleInv (a : Action) (s : State) :
  scaleInv s -> scaleInv (dispatch a s).
Proof.
  unfold scaleInv. intros H.
  destruct a; cbn [dispatch];
    unfold handleMouseDown, handleMouseMove, handleMouseUp, handleWheel, resetView,
      undo, redo, clearCanvas, onLoadBoard, onDraw, onClearBoard, onUpdateBoard,
      eraseAtPoint;
    break_match; state_simpl;
    try assumption;
    try (cbn [Viewport.scale]; lra).
  rewrite zoomAt_scale. apply clamp_bounds.
Qed.

(** In every state the component can reach, the zoom lies in [0.1, 5], so the
    eraser's radius [12 / viewport.scale] lies in [2.4, 120]. *)
Theorem reachable_scale_bounds (s : State) :
  reachable s ->
  0.1 <= Viewport.scale (viewport s) <= 5 /\
  2.4 <= 12 / Viewport.scale (viewport s) <= 120.
Proof.
  intros Hr.
  assert (H : scaleInv s).
  { induction Hr as [room rect | s a _ IH].
    - unfold scaleInv. cbn [initialState viewport Viewport.scale]. lra.
    - apply dispatch_scaleInv, IH. }
  unfold scaleInv in H. split; [exact H|].
  destruct H as [Hlo Hhi].
  assert (Hpos : 0 < Viewport.scale (viewport s)) by lra.
  split.
  - apply Rmult_le_reg_r with (Viewport.scale (viewport s)); [exact Hpos|].
    unfold Rdiv. rewrite Rmult_assoc, Rinv_l by lra. lra.
  - apply Rmult_le_reg_r with (Viewport.scale (viewport s)); [exact Hpos|].
    unfold Rdiv. rewrite Rmult_assoc, Rinv_l by lra. lra.
Qed.

Lemma reachable_scale_bounds_witness :
  reachable (handleWheel Sample.wheelDown Sample.fresh) /\
  0.1 <= Viewport.scale (viewport (handleWheel Sample.wheelDown Sample.fresh)) <= 5.
Proof.
  assert (Hr : reachable (handleWheel Sample.wheelDown Sample.fresh)).
  { apply (reach_step Sample.fresh (Wheel Sample.wheelDown)). apply reach_init. }
  split; [exact Hr|]. apply (reachable_scale_bounds _ Hr).
Defined.

(** ** Pan gestures *)

Lemma mouseDown_pan (s : State) (e : MouseEvent.t) :
  selectedTool s = "pan" -> MouseEvent.button e = 0%Z ->
  panningFrom s (handleMouseDown e s) (clientPos e) (clientPos e).
Proof.
  intros Ht Hb. unfold handleMouseDown. rewrite Hb, Ht.
  cbn [Z.eqb orb String.eqb Ascii.eqb Bool.eqb]. state_simpl.
  unfold panningFrom, clientPos. state_simpl. cbn [Pos.x Pos.y].
  repeat split; try reflexivity; lra.
Qed.

Lemma mouseMove_pan (s0 s : State) (down cur : Pos.t) (e : MouseEvent.t) :
  panningFrom s0 s down cur ->
  panningFrom s0 (handleMouseMove e s) down (clientPos e).
Proof.
  intros (Hp & Hl & Hx & Hy & Hsc & Hli & Hsh & Hh & Hi & He).
  unfold handleMouseMove. rewrite Hp, Hl. state_simpl.
  unfold panningFrom, clientPos. state_simpl.
  cbn [Viewport.x Viewport.y Viewport.scale Pos.x Pos.y].
  rewrite Hx, Hy.
  repeat split; try assumption; try reflexivity; lra.
Qed.

Lemma last_default {A : Type} (l : list A) (a d d' : A) :
  last (a :: l) d = last (a :: l) d'.
Proof.
  revert a. induction l as [|b l IH]; intros a; [reflexivity|].
  change (last (b :: l) d = last (b :: l) d'). apply IH.
Qed.

Lemma mouseMoves_pan (moves : list MouseEvent.t) (s0 s : State) (down : Pos.t)
  (e0 : MouseEvent.t) :
  panningFrom s0 s down (clientPos e0) ->
  panningFrom s0 (run (map MouseMove moves) s) down (clientPos (last moves e0)).
Proof.
  revert s e0. induction moves as [|e moves IH]; intros s e0 Hp.
  - exact Hp.
  - cbn [map]. unfold run. cbn [fold_left dispatch].
    pose proof (IH _ e (mouseMove_pan s0 s down _ e Hp)) as H.
    destruct moves as [|e' moves']; [exact H|].
    change (last (e :: e' :: moves') e0) with (last (e' :: moves') e0).
    rewrite (last_default moves' e' e0 e). exact H.
Qed.

(** A pan gesture (pointer-down with the pan tool, any pointer-moves,
    pointer-up) translates the viewport by the displacement of the pointer
    between the first and the last position, whatever the path; the zoom, the
    board, the history and the socket are untouched, and every world point
    moves on screen by that displacement. *)
Theorem pan_gesture (s : State) (down : MouseEvent.t) (moves : list MouseEvent.t) :
  selectedTool s = "pan" ->
  MouseEvent.button down = 0%Z ->
  let s' := run (MouseDown down :: map MouseMove moves ++ [MouseUp]) s in
  let dx := MouseEvent.clientX (last moves down) - MouseEvent.clientX down in
  let dy := MouseEvent.clientY (last moves down) - MouseEvent.clientY down in
  Viewport.x (viewport s') = Viewport.x (viewport s) + dx /\
  Viewport.y (viewport s') = Viewport.y (viewport s) + dy /\
  Viewport.scale (viewport s') = Viewport.scale (viewport s) /\
  isPanning s' = false /\
  lines s' = lines s /\ shapes s' = shapes s /\
  history s' = history s /\ historyIndex s' = historyIndex s /\
  emitted s' = emitted s /\
  (forall worldX worldY,
     Geometry.worldToScreen (viewport s') worldX worldY
     = Pos.mk (Pos.x (Geometry.worldToScreen (viewport s) worldX worldY) + dx)
              (Pos.y (Geometry.worldToScreen (viewport s) worldX worldY) + dy)).
Proof.
  intros Ht Hb s' dx dy.
  pose proof (mouseMoves_pan moves s _ _ down (mouseDown_pan s down Ht Hb)) as Hp.
  destruct Hp as (Hp & Hl & Hx & Hy & Hsc & Hli & Hsh & Hh & Hi & He).
  assert (Hs' : s' = handleMouseUp (run (map MouseMove moves) (handleMouseDown down s))).
  { unfold s', run. cbn [fold_left dispatch]. rewrite fold_left_app. reflexivity. }
  cbn [clientPos Pos.x Pos.y] in Hx, Hy.
  assert (Hv : viewport s' = viewport (run (map MouseMove moves) (handleMouseDown down s))).
  { rewrite Hs'. unfold handleMouseUp. rewrite Hp. reflexivity. }
  assert (Hrest : isPanning s' = false /\ lines s' = lines s /\ shapes s' = shapes s /\
                  history s' = history s /\ historyIndex s' = historyIndex s /\
                  emitted s' = emitted s).
  { rewrite Hs'. unfold handleMouseUp. rewrite Hp. state_simpl.
    repeat split; assumption. }
  rewrite Hv. fold dx in Hx. fold dy in Hy.
  split; [exact Hx|]. split; [exact Hy|]. split; [exact Hsc|].
  destruct Hrest as (H1 & H2 & H3 & H4 & H5 & H6).
  repeat (split; [assumption|]).
  intros worldX worldY. unfold Geometry.worldToScreen. cbn [Pos.x Pos.y].
  rewrite Hx, Hy, Hsc. f_equal; ring.
Qed.

Lemma pan_gesture_witness :
  selectedTool Demo.panTool = "pan" /\
  MouseEvent.button Demo.press = 0%Z /\
  Viewport.x (viewport (run [MouseDown Demo.press; MouseMove Sample.leftClick;
                             MouseMove Demo.dragTo; MouseUp] Demo.panTool))
  = Viewport.x (viewport Demo.panTool)
    + (MouseEvent.clientX Demo.dragTo - MouseEvent.clientX Demo.press).
Proof.
  split; [reflexivity|]. split; [reflexivity|].
  pose proof (pan_gesture Demo.panTool Demo.press [Sample.leftClick; Demo.dragTo]
                eq_refl eq_refl) as H.
  cbv zeta in H. apply H.
Defined.

(** ** Pen gestures, in world coordinates *)

Lemma getMousePos_frame (s0 s : State) (e : MouseEvent.t) :
  viewport s = viewport s0 -> canvasRect s = canvasRect s0 ->
  getMousePos s e = getMousePos s0 e.
Proof. intros Hv Hr. unfold getMousePos. rewrite Hv, Hr. reflexivity. Qed.

Lemma mouseMove_view (s : State) (e : MouseEvent.t) :
  isPanning s = false ->
  viewport (handleMouseMove e s) = viewport s /\
  canvasRect (handleMouseMove e s) = canvasRect s.
Proof.
  intros Hp. unfold handleMouseMove, eraseAtPoint. rewrite Hp.
  break_match; state_simpl; split; reflexivity.
Qed.

Lemma mouseMoves_pen_path (moves : list MouseEvent.t) (s0 s : State) (pts : list R) :
  drawing s0 s pts ->
  viewport s = viewport s0 -> canvasRect s = canvasRect s0 ->
  drawing s0 (run (map MouseMove moves) s) (pts ++ penPath s0 moves).
Proof.
  revert s pts. induction moves as [|e moves IH]; intros s pts Hd Hv Hr.
  - cbn [penPath flat_map map]. rewrite app_nil_r. exact Hd.
  - cbn [map]. unfold run. cbn [fold_left dispatch].
    assert (Hp : isPanning s = false) by apply Hd.
    destruct (mouseMove_view s e Hp) as [Hv' Hr'].
    pose proof (mouseMove_pen s0 s pts e Hd) as Hd'.
    rewrite (getMousePos_frame s0 s e Hv Hr) in Hd'.
    pose proof (IH _ _ Hd' (eq_trans Hv' Hv) (eq_trans Hr' Hr)) as H.
    unfold run in H. rewrite <- app_assoc in H. exact H.
Qed.

(** A pen gesture commits the path of the pointer: the stroke appended to
    [lines], sent in the [draw] event and stored in the new history entry
    holds the world positions of the pointer-down and of every pointer-move,
    in order, with the tool ["pen"] and the colour and width selected when the
    gesture began. *)
Theorem pen_gesture_path
  (s : State) (down : MouseEvent.t) (moves : list MouseEvent.t) :
  selectedTool s = "pen" ->
  isPanning s = false ->
  MouseEvent.button down = 0%Z ->
  let s' := run (MouseDown down :: map MouseMove moves ++ [MouseUp]) s in
  let stroke := Line.mk (penPath s (down :: moves)) "pen"
                        (selectedColor s) (selectedLineWidth s) in
  lines s' = lines s ++ [stroke] /\
  shapes s' = shapes s /\
  emitted s' = emitted s ++ [EmitDraw (roomId s) (OfLine stroke)] /\
  history s' = JsArray.slice0 (history s) (historyIndex s + 1)
                 ++ [Snapshot.mk (lines s ++ [stroke]) (shapes s)].
Proof.
  intros Ht Hp Hb s' stroke.
  pose proof (mouseDown_pen s down Ht Hp Hb) as Hd.
  assert (Hv : viewport (handleMouseDown down s) = viewport s
               /\ canvasRect (handleMouseDown down s) = canvasRect s).
  { unfold handleMouseDown. rewrite Hb, Ht.
    cbn [Z.eqb orb String.eqb Ascii.eqb Bool.eqb]. state_simpl. split; reflexivity. }
  destruct Hv as [Hv Hr].
  pose proof (mouseMoves_pen_path moves s _ _ Hd Hv Hr) as Hd'.
  assert (Hs' : s' = handleMouseUp (run (map MouseMove moves) (handleMouseDown down s))).
  { unfold s', run. cbn [fold_left dispatch]. rewrite fold_left_app. reflexivity. }
  destruct (mouseUp_pen _ _ _ Hd') as (H1 & H2 & H3 & H4 & _); [discriminate|].
  rewrite Hs'. unfold stroke. cbn [penPath flat_map].
  split; [exact H1|]. split; [exact H2|]. split; [exact H3 | exact H4].
Qed.

Lemma pen_gesture_path_witness :
  selectedTool Sample.fresh = "pen" /\
  isPanning Sample.fresh = false /\
  MouseEvent.button Demo.press = 0%Z /\
  lines (run [MouseDown Demo.press; MouseMove Demo.dragTo; MouseUp] Sample.fresh)
  = [Line.mk (penPath Sample.fresh [Demo.press; Demo.dragTo]) "pen" "#000000" 2].
Proof.
  split; [reflexivity|]. split; [reflexivity|]. split; [reflexivity|].
  pose proof (pen_gesture_path Sample.fresh Demo.press [Demo.dragTo]
                eq_refl eq_refl eq_refl) as H.
  cbv zeta in H. apply H.
Defined.

(** ** Shape gestures *)

Lemma isShapeTool_inv (t : string) :
  isShapeTool t = true -> t = "rectangle" \/ t = "circle".
Proof.
  unfold isShapeTool. intros H. apply orb_true_iff in H.
  destruct H as [H | H]; apply String.eqb_eq in H; auto.
Qed.

Lemma mouseDown_shape (s : State) (e : MouseEvent.t) :
  isShapeTool (selectedTool s) = true -> isPanning s = false ->
  MouseEvent.button e = 0%Z ->
  shapingFrom s (handleMouseDown e s) (getMousePos s e) 0 0.
Proof.
  intros Ht Hp Hb. unfold handleMouseDown. rewrite Hb, Ht.
  destruct (isShapeTool_inv _ Ht) as [E | E]; rewrite E;
    cbn [Z.eqb orb String.eqb Ascii.eqb Bool.eqb]; state_simpl;
    unfold shapingFrom; state_simpl; rewrite ?E;
    repeat split; assumption.
Qed.

Lemma mouseMove_shape (s0 s : State) (start : Pos.t) (w h : R) (e : MouseEvent.t) :
  isShapeTool (selectedTool s0) = true ->
  shapingFrom s0 s start w h ->
  shapingFrom s0 (handleMouseMove e s) start
    (Pos.x (getMousePos s0 e) - Pos.x start)
    (Pos.y (getMousePos s0 e) - Pos.y start).
Proof.
  intros Htool (Hsh & Hl & Ht & Hp & Hd & Hst & Hv & Hr & Hh & Hi & He & Hro).
  unfold handleMouseMove. rewrite Hp, Hd, Hst, Ht, Htool.
  rewrite (getMousePos_frame s0 s e Hv Hr).
  assert (Hgo : (if String.eqb (selectedTool s0) "pen"
                 then updLines (extendLastLine (getMousePos s0 e)) s
                 else if String.eqb (selectedTool s0) "eraser"
                      then eraseAtPoint s (Pos.x (getMousePos s0 e))
                             (Pos.y (getMousePos s0 e)) s
                      else updShapes (resizeLastShape (getMousePos s0 e) start) s)
                = updShapes (resizeLastShape (getMousePos s0 e) start) s).
  { destruct (isShapeTool_inv _ Htool) as [E | E]; rewrite E; reflexivity. }
  rewrite Hgo.
  unfold shapingFrom. state_simpl. rewrite Hsh.
  unfold resizeLastShape. rewrite lastElem_snoc, slice0_drop_last.
  rewrite length_app. cbn [length].
  replace (length (shapes s0) + 1 =? 0)%nat with false
    by (symmetry; apply Nat.eqb_neq; lia).
  cbn [Shape.type Shape.x Shape.y Shape.tool].
  repeat split; assumption.
Qed.

Lemma mouseMoves_shape (moves : list MouseEvent.t) (s0 s : State)
  (start : Pos.t) (down : MouseEvent.t) (w h : R) :
  isShapeTool (selectedTool s0) = true ->
  start = getMousePos s0 down ->
  shapingFrom s0 s start w h ->
  moves <> [] ->
  shapingFrom s0 (run (map MouseMove moves) s) start
    (fst (dragExtent s0 down moves)) (snd (dragExtent s0 down moves)).
Proof.
  intros Htool Hstart. revert s w h.
  induction moves as [|e moves IH]; intros s w h Hs Hne; [congruence|].
  cbn [map]. unfold run. cbn [fold_left dispatch].
  pose proof (mouseMove_shape s0 s start w h e Htool Hs) as Hs'.
  destruct moves as [|e' moves'].
  - cbn [map fold_left dragExtent last fst snd]. rewrite <- Hstart. exact Hs'.
  - pose proof (IH _ _ _ Hs' ltac:(discriminate)) as H.
    unfold dragExtent in *.
    change (last (e :: e' :: moves') down) with (last (e' :: moves') down).
    exact H.
Qed.

(** A shape gesture (pointer-down with the rectangle or circle tool, any
    pointer-moves, pointer-up) commits one shape: its type and tool are the
    selected tool, its anchor the world position of the pointer-down, its
    width and height the last pointer position minus the anchor, or zero when
    the pointer never moved.  The shape is appended to [shapes], sent in one
    [draw] event and stored in the new last history entry. *)
Theorem shape_gesture (s : State) (down : MouseEvent.t) (moves : list MouseEvent.t) :
  isShapeTool (selectedTool s) = true ->
  isPanning s = false ->
  MouseEvent.button down = 0%Z ->
  let s' := run (MouseDown down :: map MouseMove moves ++ [MouseUp]) s in
  let shape :=
    Shape.mk (selectedTool s)
      (Pos.x (getMousePos s down)) (Pos.y (getMousePos s down))
      (fst (dragExtent s down moves)) (snd (dragExtent s down moves))
      (selectedTool s) in
  shapes s' = shapes s ++ [shape] /\
  lines s' = lines s /\
  emitted s' = emitted s ++ [EmitDraw (roomId s) (OfShape shape)] /\
  history s' = JsArray.slice0 (history s) (historyIndex s + 1)
                 ++ [Snapshot.mk (lines s) (shapes s ++ [shape])] /\
  historyIndex s' = (Z.of_nat (length (history s')) - 1)%Z.
Proof.
  intros Htool Hp Hb s' shape.
  pose proof (mouseDown_shape s down Htool Hp Hb) as Hd.
  assert (Hmid : shapingFrom s (run (map MouseMove moves) (handleMouseDown down s))
                   (getMousePos s down)
                   (fst (dragExtent s down moves)) (snd (dragExtent s down moves))).
  { destruct moves as [|e moves'].
    - exact Hd.
    - apply (mouseMoves_shape (e :: moves') s _ _ down 0 0 Htool eq_refl Hd).
      discriminate. }
  assert (Hs' : s' = handleMouseUp (run (map MouseMove moves) (handleMouseDown down s))).
  { unfold s', run. cbn [fold_left dispatch]. rewrite fold_left_app. reflexivity. }
  destruct Hmid as (Hsh & Hl & Ht & Hpan & Hdr & Hst & Hv & Hr & Hh & Hi & He & Hro).
  rewrite Hs'. unfold handleMouseUp. rewrite Hpan, Hdr, Ht, Htool.
  replace (String.eqb (selectedTool s) "pen") with false
    by (destruct (isShapeTool_inv _ Htool) as [E | E]; rewrite E; reflexivity).
  cbn [negb]. state_simpl. rewrite Hsh, lastElem_snoc. state_simpl.
  rewrite Hsh, Hl, Hh, Hi, He, Hro. repeat split.
Qed.

Lemma shape_gesture_witness :
  isShapeTool (selectedTool Demo.rectTool) = true /\
  isPanning Demo.rectTool = false /\
  MouseEvent.button Demo.press = 0%Z /\
  shapes (run [MouseDown Demo.press; MouseMove Demo.dragTo; MouseUp] Demo.rectTool)
  = [Shape.mk "rectangle"
       (Pos.x (getMousePos Demo.rectTool Demo.press))
       (Pos.y (getMousePos Demo.rectTool Demo.press))
       (fst (dragExtent Demo.rectTool Demo.press [Demo.dragTo]))
       (snd (dragExtent Demo.rectTool Demo.press [Demo.dragTo]))
       "rectangle"].
Proof.
  split; [reflexivity|]. split; [reflexivity|]. split; [reflexivity|].
  pose proof (shape_gesture Demo.rectTool Demo.press [Demo.dragTo]
                eq_refl eq_refl eq_refl) as H.
  cbv zeta in H. apply H.
Defined.

(** ** Undo and redo *)

Lemma snapshot_eta (snap : Snapshot.t) :
  Snapshot.mk (Snapshot.lines snap) (Snapshot.shapes snap) = snap.
Proof. destruct snap. reflexivity. Qed.

Lemma index_defined {A : Type} (arr : list A) (i : Z) :
  (0 <= i < Z.of_nat (length arr))%Z -> exists a, JsArray.index arr i = Some a.
Proof.
  intros Hi. unfold JsArray.index. destruct (Z.ltb_spec i 0); [lia|].
  destruct (nth_error arr (Z.to_nat i)) eqn:E; [eauto|].
  apply nth_error_None in E. lia.
Qed.

Lemma undo_step (s : State) :
  histInv s -> (0 < historyIndex s)%Z ->
  history (undo s) = history s /\
  historyIndex (undo s) = (historyIndex s - 1)%Z /\
  synced (undo s) /\
  roomId (undo s) = roomId s /\
  emitted (undo s)
  = emitted s ++ [EmitUpdateBoard (roomId s) (lines (undo s)) (shapes (undo s))].
Proof.
  unfold histInv. intros Hinv Hpos. unfold undo.
  destruct (Z.ltb_spec 0 (historyIndex s)); [|lia].
  destruct (index_defined (history s) (historyIndex s - 1)) as [prev Hprev]; [lia|].
  rewrite Hprev. unfold synced. state_simpl.
  rewrite Hprev, snapshot_eta. repeat split.
Qed.

Lemma redo_step (s : State) :
  histInv s -> (historyIndex s < Z.of_nat (length (history s)) - 1)%Z ->
  history (redo s) = history s /\
  historyIndex (redo s) = (historyIndex s + 1)%Z /\
  synced (redo s) /\
  roomId (redo s) = roomId s /\
  emitted (redo s)
  = emitted s ++ [EmitUpdateBoard (roomId s) (lines (redo s)) (shapes (redo s))].
Proof.
  unfold histInv. intros Hinv Hlt. unfold redo.
  destruct (Z.ltb_spec (historyIndex s) (Z.of_nat (length (history s)) - 1)); [|lia].
  destruct (index_defined (history s) (historyIndex s + 1)) as [next Hnext]; [lia|].
  rewrite Hnext. unfold synced. state_simpl.
  rewrite Hnext, snapshot_eta. repeat split.
Qed.

(** Undo then redo is a round trip.  In a reachable state whose board is the
    current history entry and whose index is not 0, [undo] shows the previous
    entry and [redo] then shows the board of before again; the log itself is
    never changed, the index is back where it was, and each of the two steps
    emits one [updateBoard] carrying the board it shows. *)
Theorem undo_redo_round_trip (s : State) :
  reachable s ->
  synced s ->
  (0 < historyIndex s)%Z ->
  JsArray.index (history s) (historyIndex s - 1)
  = Some (Snapshot.mk (lines (undo s)) (shapes (undo s))) /\
  lines (redo (undo s)) = lines s /\
  shapes (redo (undo s)) = shapes s /\
  history (redo (undo s)) = history s /\
  historyIndex (redo (undo s)) = historyIndex s /\
  emitted (redo (undo s))
  = emitted s
      ++ [EmitUpdateBoard (roomId s) (lines (undo s)) (shapes (undo s));
          EmitUpdateBoard (roomId s) (lines s) (shapes s)].
Proof.
  intros Hr Hsync Hpos.
  pose proof (reachable_histInv s Hr) as Hinv.
  destruct (undo_step s Hinv Hpos) as (Hh & Hi & Hsu & Hro & He).
  assert (Hinvu : histInv (undo s)).
  { unfold histInv in *. rewrite Hh, Hi. lia. }
  assert (Hlt : (historyIndex (undo s) < Z.of_nat (length (history (undo s))) - 1)%Z).
  { unfold histInv in Hinv. rewrite Hh, Hi. lia. }
  destruct (redo_step (undo s) Hinvu Hlt) as (Hh' & Hi' & Hsr & Hro' & He').
  assert (Hboard : Snapshot.mk (lines (redo (undo s))) (shapes (redo (undo s)))
                   = Snapshot.mk (lines s) (shapes s)).
  { unfold synced in Hsr, Hsync. rewrite Hh', Hi', Hh, Hi in Hsr.
    replace (historyIndex s - 1 + 1)%Z with (historyIndex s) in Hsr by lia.
    congruence. }
  injection Hboard as Hl Hs.
  split.
  { unfold synced in Hsu. rewrite Hh, Hi in Hsu. exact Hsu. }
  split; [exact Hl|]. split; [exact Hs|].
  split; [congruence|]. split; [lia|].
  rewrite He', He, Hl, Hs, Hro, <- app_assoc. reflexivity.
Qed.

Lemma undo_redo_round_trip_witness :
  reachable Sample.drawn /\
  synced Sample.drawn /\
  (0 < historyIndex Sample.drawn)%Z /\
  lines (redo (undo Sample.drawn)) = lines Sample.drawn /\
  historyIndex (redo (undo Sample.drawn)) = historyIndex Sample.drawn.
Proof.
  assert (Hr : reachable Sample.drawn).
  { unfold Sample.drawn, run. cbn [fold_left].
    do 2 apply reach_step. apply reach_init. }
  assert (Hs : synced Sample.drawn) by reflexivity.
  assert (Hp : (0 < historyIndex Sample.drawn)%Z) by reflexivity.
  pose proof (undo_redo_round_trip Sample.drawn Hr Hs Hp) as (_ & H1 & _ & _ & H2 & _).
  repeat (split; [assumption|]). exact H2.
Defined.

(** ** Clearing and loading *)

(** A clear cannot be undone.  After the local [clearCanvas] or the inbound
    [clearBoard] the board is empty and the history is the single empty
    snapshot with which it is in step, so [undo] and [redo] do nothing;
    [clearCanvas] emits one [clearBoard] and the inbound handler emits
    nothing. *)
Theorem clear_cannot_be_undone (s : State) :
  (lines (clearCanvas s) = [] /\ shapes (clearCanvas s) = [] /\
   synced (clearCanvas s) /\
   undo (clearCanvas s) = clearCanvas s /\
   redo (clearCanvas s) = clearCanvas s /\
   emitted (clearCanvas s) = emitted s ++ [EmitClearBoard (roomId s)]) /\
  (lines (onClearBoard s) = [] /\ shapes (onClearBoard s) = [] /\
   synced (onClearBoard s) /\
   undo (onClearBoard s) = onClearBoard s /\
   redo (onClearBoard s) = onClearBoard s /\
   emitted (onClearBoard s) = emitted s).
Proof.
  split; repeat split;
    try (apply undo_at_zero; reflexivity);
    try (apply redo_at_last; reflexivity).
Qed.

(** The board a client loads on joining is one undo away from empty.
    Whatever the state and the payload, after [loadBoard] the history is the
    empty snapshot followed by the loaded board, at index 1; an [undo] then
    empties the local board and emits an [updateBoard] with no strokes and no
    shapes, and a [redo] after it shows the loaded board again. *)
Theorem undo_after_load_empties (s : State) (data : LoadBoardData) :
  let loaded := onLoadBoard data s in
  synced loaded /\
  historyIndex loaded = 1%Z /\
  length (history loaded) = 2%nat /\
  lines (undo loaded) = [] /\
  shapes (undo loaded) = [] /\
  emitted (undo loaded) = emitted s ++ [EmitUpdateBoard (roomId s) [] []] /\
  lines (redo (undo loaded)) = lines loaded /\
  shapes (redo (undo loaded)) = shapes loaded.
Proof.
  destruct data as [data | dataLines dataShapes]; repeat split.
Qed.

(** ** What is sent *)

(** Every action sends at most one event, and an inbound event sends none:
    what arrives from the socket is never echoed back. *)
Theorem dispatch_emits_at_most_one (a : Action) (s : State) :
  (exists evs, emitted (dispatch a s) = emitted s ++ evs /\ (length evs <= 1)%nat) /\
  (inbound a = true -> emitted (dispatch a s) = emitted s).
Proof.
  split.
  - destruct a; cbn [dispatch];
      unfold handleMouseDown, handleMouseMove, handleMouseUp, handleWheel, resetView,
        undo, redo, clearCanvas, onLoadBoard, onDraw, onClearBoard, onUpdateBoard,
        eraseAtPoint;
      break_match; state_simpl;
      first [ exists []; split; [symmetry; apply app_nil_r | cbn [length]; lia]
            | eexists [_]; split; [reflexivity | cbn [length]; lia] ].
  - destruct a; cbn [inbound]; try discriminate; intros _; cbn [dispatch];
      unfold onLoadBoard, onDraw, onClearBoard, onUpdateBoard;
      break_match; reflexivity.
Qed.

Lemma dispatch_emits_at_most_one_witness :
  inbound (Draw (DrawBare (OfLine Sample.stroke0055))) = true /\
  emitted (dispatch (Draw (DrawBare (OfLine Sample.stroke0055))) Sample.drawn)
  = emitted Sample.drawn.
Proof.
  split; [reflexivity|].
  apply (dispatch_emits_at_most_one
           (Draw (DrawBare (OfLine Sample.stroke0055))) Sample.drawn).
  reflexivity.
Defined.

(** ** The eraser's walk, characterised *)


Lemma visit_hasChanges (inEraser : bool) (coords : list R) (st : Eraser.Loop) :
  Eraser.hasChanges (Eraser.visit inEraser coords st)
  = Eraser.hasChanges st || inEraser.
Proof.
  unfold Eraser.visit.
  destruct inEraser; cbn [negb];
    destruct (Eraser.isInEraser st); cbn [negb andb];
    destruct (JsArray.nonEmpty (Eraser.currentSegment st));
    cbn [Eraser.flush Eraser.hasChanges];
    rewrite ?orb_true_r, ?orb_false_r; reflexivity.
Qed.


Lemma walk_hasChanges (x y r : R) (pts : list R) :
  forall st,
    Eraser.hasChanges (Eraser.walk x y r pts st)
    = Eraser.hasChanges st || anyInside x y r pts.
Proof.
  induction pts as [| a | a b rest IH] using pairs_ind; intros st.
  - cbn [Eraser.walk anyInside]. rewrite orb_false_r. reflexivity.
  - cbn [Eraser.walk anyInside]. apply visit_hasChanges.
  - cbn [Eraser.walk anyInside]. rewrite IH, visit_hasChanges, orb_assoc.
    reflexivity.
Qed.





Lemma anyInside_true (x y r : R) (pts : list R) :
  anyInside x y r pts = true <-> Exists (inside x y r) (pointsOf pts).
Proof.
  induction pts as [| a | a b rest IH] using pairs_ind.
  - cbn [anyInside pointsOf]. split; [discriminate | intros H; inversion H].
  - cbn [anyInside pointsOf]. split; [discriminate | intros H; inversion H].
  - cbn [anyInside pointsOf]. rewrite orb_true_iff, Exists_cons, IH, Rleb_true.
    unfold inside. cbn [Pos.x Pos.y]. tauto.
Qed.



(** ** The eraser's pass, characterised *)

Lemma visit_track (inEraser : bool) (coords : list R) (st st' : Eraser.Loop) :
  Eraser.segments st = Eraser.segments st' ->
  Eraser.currentSegment st = Eraser.currentSegment st' ->
  Eraser.isInEraser st = Eraser.isInEraser st' ->
  Eraser.segments (Eraser.visit inEraser coords st)
  = Eraser.segments (Eraser.visit inEraser coords st') /\
  Eraser.currentSegment (Eraser.visit inEraser coords st)
  = Eraser.currentSegment (Eraser.visit inEraser coords st') /\
  Eraser.isInEraser (Eraser.visit inEraser coords st)
  = Eraser.isInEraser (Eraser.visit inEraser coords st').
Proof.
  intros Hs Hc Hi. unfold Eraser.visit, Eraser.flush. rewrite <- Hs, <- Hc, <- Hi.
  destruct inEraser; cbn [negb];
    destruct (Eraser.isInEraser st); cbn [negb andb];
    destruct (JsArray.nonEmpty (Eraser.currentSegment st));
    cbn [Eraser.segments Eraser.currentSegment Eraser.isInEraser];
    repeat split; congruence.
Qed.

Lemma walk_track (x y r : R) (pts : list R) :
  forall st st',
    Eraser.segments st = Eraser.segments st' ->
    Eraser.currentSegment st = Eraser.currentSegment st' ->
    Eraser.isInEraser st = Eraser.isInEraser st' ->
    Eraser.segments (Eraser.walk x y r pts st)
    = Eraser.segments (Eraser.walk x y r pts st') /\
    Eraser.currentSegment (Eraser.walk x y r pts st)
    = Eraser.currentSegment (Eraser.walk x y r pts st').
Proof.
  induction pts as [| a | a b rest IH] using pairs_ind; intros st st' Hs Hc Hi;
    cbn [Eraser.walk].
  - split; assumption.
  - destruct (visit_track false [a] st st' Hs Hc Hi) as (H1 & H2 & _).
    split; assumption.
  - destruct (visit_track (Rleb (Eraser.distance a b x y) r) [a; b] st st' Hs Hc Hi)
      as (H1 & H2 & H3).
    apply IH; assumption.
Qed.

Lemma segmentsOf_flag (x y r : R) (pts : list R) (hc : bool) :
  fst (Eraser.segmentsOf x y r pts hc) = fst (Eraser.segmentsOf x y r pts false).
Proof.
  unfold Eraser.segmentsOf. cbn [fst].
  destruct (walk_track x y r pts (Eraser.mkLoop [] [] false hc)
              (Eraser.mkLoop [] [] false false) eq_refl eq_refl eq_refl) as [H1 H2].
  rewrite H1, H2. reflexivity.
Qed.

Lemma eraseLine_survivors (x y r : R) (line : Line.t) (newLines : list Line.t) (hc : bool) :
  Eraser.eraseLine x y r (newLines, hc) line
  = (newLines ++ survivors x y r line, hc || strokeHit x y r line).
Proof.
  unfold Eraser.eraseLine, survivors, strokeHit.
  destruct (Nat.ltb_spec (length (Line.points line)) 4) as [Hshort | Hlong].
  - replace (4 <=? length (Line.points line))%nat with false
      by (symmetry; apply Nat.leb_gt; exact Hshort).
    cbn [andb]. rewrite orb_false_r. reflexivity.
  - replace (4 <=? length (Line.points line))%nat with true
      by (symmetry; apply Nat.leb_le; exact Hlong).
    cbn [andb].
    assert (Hflag : snd (Eraser.segmentsOf x y r (Line.points line) hc)
                    = hc || anyInside x y r (Line.points line))
      by apply walk_hasChanges.
    pose proof (segmentsOf_flag x y r (Line.points line) hc) as Hsegs.
    destruct (Eraser.segmentsOf x y r (Line.points line) hc) as [segs hc1].
    cbn [fst snd] in Hflag, Hsegs. subst. reflexivity.
Qed.

Lemma eraseLines_survivors (x y r : R) (lines : list Line.t) :
  forall newLines hc,
    fold_left (Eraser.eraseLine x y r) lines (newLines, hc)
    = (newLines ++ flat_map (survivors x y r) lines,
       hc || existsb (strokeHit x y r) lines).
Proof.
  induction lines as [|line lines IH]; intros newLines hc.
  - cbn [fold_left flat_map existsb]. rewrite app_nil_r, orb_false_r. reflexivity.
  - cbn [fold_left flat_map existsb].
    rewrite eraseLine_survivors, IH, <- app_assoc, orb_assoc. reflexivity.
Qed.

Lemma pass_unfold (x y r : R) (lines : list Line.t) (shapes : list Shape.t) :
  Eraser.pass x y r lines shapes
  = (flat_map (survivors x y r) lines,
     filter (fun shape => negb (Eraser.removesShape x y r shape)) shapes,
     existsb (strokeHit x y r) lines || existsb (Eraser.removesShape x y r) shapes).
Proof.
  unfold Eraser.pass.
  rewrite eraseLines_survivors, filterShape_fold. reflexivity.
Qed.

Lemma existsb_Exists {A : Type} (f : A -> bool) (l : list A) :
  existsb f l = true <-> Exists (fun a => f a = true) l.
Proof.
  rewrite existsb_exists, Exists_exists. reflexivity.
Qed.

Lemma strokeHit_true (x y r : R) (line : Line.t) :
  strokeHit x y r line = true <->
  (4 <= length (Line.points line))%nat /\
  Exists (inside x y r) (pointsOf (Line.points line)).
Proof.
  unfold strokeHit. rewrite andb_true_iff, Nat.leb_le, anyInside_true. tauto.
Qed.

Lemma pass_flag_hits (x y r : R) (lines : list Line.t) (shapes : list Shape.t) :
  snd (Eraser.pass x y r lines shapes) = true <-> eraserHits x y r lines shapes.
Proof.
  rewrite pass_unfold. cbn [snd]. unfold eraserHits.
  rewrite orb_true_iff, !existsb_Exists.
  assert (H : Exists (fun line => strokeHit x y r line = true) lines <->
              Exists (fun line =>
                        (4 <= length (Line.points line))%nat /\
                        Exists (inside x y r) (pointsOf (Line.points line))) lines).
  { rewrite !Exists_exists. split; intros (line & Hin & Hh); exists line;
      (split; [exact Hin|]); apply strokeHit_true; exact Hh. }
  rewrite H. tauto.
Qed.

(** The eraser writes exactly when it touches.  If a stroke of at least 4
    numbers has a point within the circle of radius [12 / viewport.scale], or
    a shape passes the removal test, [eraseAtPoint] changes the state and
    emits one [updateBoard] carrying the new board; otherwise it leaves the
    state as it is. *)
Theorem erase_writes_iff_hit (render : State) (x y : R) :
  (eraserHits x y (12 / Viewport.scale (viewport render))
              (lines render) (shapes render) ->
   eraseAtPoint render x y render <> render /\
   emitted (eraseAtPoint render x y render)
   = emitted render
       ++ [EmitUpdateBoard (roomId render)
             (lines (eraseAtPoint render x y render))
             (shapes (eraseAtPoint render x y render))]) /\
  (~ eraserHits x y (12 / Viewport.scale (viewport render))
                (lines render) (shapes render) ->
   eraseAtPoint render x y render = render).
Proof.
  pose proof (pass_flag_hits x y (12 / Viewport.scale (viewport render))
                (lines render) (shapes render)) as Hflag.
  unfold eraseAtPoint.
  destruct (Eraser.pass x y (12 / Viewport.scale (viewport render))
              (lines render) (shapes render)) as [[newLines newShapes] hc].
  cbn [snd] in Hflag. split.
  - intros Hhit. apply Hflag in Hhit. subst hc. state_simpl.
    split; [|reflexivity].
    intros Heq. apply (f_equal emitted) in Heq. state_simpl.
    apply (f_equal (@length OutEvent)) in Heq.
    rewrite length_app in Heq. cbn [length] in Heq. lia.
  - intros Hmiss. destruct hc; [|reflexivity].
    exfalso. apply Hmiss, Hflag. reflexivity.
Qed.

Lemma erase_writes_iff_hit_witness :
  eraserHits 10 0 (12 / Viewport.scale (viewport Sample.busy))
             (lines Sample.busy) (shapes Sample.busy) /\
  eraseAtPoint Sample.busy 10 0 Sample.busy <> Sample.busy /\
  ~ eraserHits 5 5 (12 / Viewport.scale (viewport Sample.drawn))
               (lines Sample.drawn) (shapes Sample.drawn) /\
  eraseAtPoint Sample.drawn 5 5 Sample.drawn = Sample.drawn.
Proof.
  assert (Hr : 12 / Viewport.scale (viewport Sample.busy) = 12).
  { cbn [Sample.busy viewport Viewport.scale]. field. }
  assert (Hhit : eraserHits 10 0 (12 / Viewport.scale (viewport Sample.busy))
                            (lines Sample.busy) (shapes Sample.busy)).
  { rewrite Hr. left. cbn [Sample.busy lines]. apply Exists_cons_hd.
    split; [cbn [Sample.straight Line.points length]; lia|].
    cbn [Sample.straight Line.points pointsOf]. apply Exists_cons_hd.
    unfold inside. cbn [Pos.x Pos.y]. apply sqrt_le; lra. }
  assert (Hl : lines Sample.drawn
               = [Line.mk [(5 - 0 - 0) / 1; (5 - 0 - 0) / 1] "pen" "#000000" 2])
    by reflexivity.
  assert (Hs : shapes Sample.drawn = []) by reflexivity.
  assert (Hmiss : ~ eraserHits 5 5 (12 / Viewport.scale (viewport Sample.drawn))
                               (lines Sample.drawn) (shapes Sample.drawn)).
  { rewrite Hl, Hs. intros [H | H].
    - apply Exists_cons in H. destruct H as [[Hlen _] | H]; [|inversion H].
      cbn [Line.points length] in Hlen. lia.
    - inversion H. }
  split; [exact Hhit|].
  split; [apply (erase_writes_iff_hit Sample.busy 10 0); exact Hhit|].
  split; [exact Hmiss|].
  apply (erase_writes_iff_hit Sample.drawn 5 5). exact Hmiss.
Defined.

(** A stroke of fewer than 2 points cannot be erased: it is still on the
    board after any pass, and on a board that holds such strokes only, and no
    shape, the eraser does nothing wherever it is put. *)
Theorem short_strokes_survive (render : State) (x y : R) :
  (forall line r shapes,
     In line (lines render) -> (length (Line.points line) < 4)%nat ->
     In line (fst (fst (Eraser.pass x y r (lines render) shapes)))) /\
  ((forall line, In line (lines render) -> (length (Line.points line) < 4)%nat) ->
   shapes render = [] ->
   forall pending, eraseAtPoint render x y pending = pending).
Proof.
  split.
  - intros line r shapes Hin Hshort. rewrite pass_unfold. cbn [fst].
    apply in_flat_map. exists line. split; [exact Hin|].
    unfold survivors.
    destruct (Nat.ltb_spec (length (Line.points line)) 4); [|lia].
    left. reflexivity.
  - intros Hall Hnone pending. unfold eraseAtPoint.
    rewrite pass_unfold, Hnone. cbn [existsb filter].
    rewrite existsb_none; [reflexivity|].
    intros line Hin. unfold strokeHit.
    replace (4 <=? length (Line.points line))%nat with false; [reflexivity|].
    symmetry. apply Nat.leb_gt. apply Hall, Hin.
Qed.

Lemma short_strokes_survive_witness :
  (forall line, In line (lines Sample.drawn) ->
     (length (Line.points line) < 4)%nat) /\
  shapes Sample.drawn = [] /\
  eraseAtPoint Sample.drawn 5 5 Sample.drawn = Sample.drawn.
Proof.
  assert (Hl : lines Sample.drawn
               = [Line.mk [(5 - 0 - 0) / 1; (5 - 0 - 0) / 1] "pen" "#000000" 2])
    by reflexivity.
  assert (Hall : forall line, In line (lines Sample.drawn) ->
                   (length (Line.points line) < 4)%nat).
  { rewrite Hl. intros line [<- | []]. cbn [Line.points length]. lia. }
  assert (Hs : shapes Sample.drawn = []) by reflexivity.
  split; [exact Hall|]. split; [exact Hs|].
  destruct (short_strokes_survive Sample.drawn 5 5) as [_ H].
  exact (H Hall Hs Sample.drawn).
Defined.

(** ** Erasing twice *)

Lemma walk_clear (x y r : R) (pts : list R) :
  Forall (outside x y r) (pointsOf pts) ->
  forall st,
    Eraser.isInEraser st = false ->
    Eraser.segments (Eraser.walk x y r pts st) = Eraser.segments st /\
    Eraser.currentSegment (Eraser.walk x y r pts st) = Eraser.currentSegment st ++ pts.
Proof.
  induction pts as [| a | a b rest IH] using pairs_ind; intros Hout st Hi;
    cbn [Eraser.walk].
  - rewrite app_nil_r. split; reflexivity.
  - unfold Eraser.visit. rewrite Hi. split; reflexivity.
  - cbn [pointsOf] in Hout. apply Forall_cons_iff in Hout. destruct Hout as [Ha Hrest].
    apply Rleb_false in Ha. cbn [Pos.x Pos.y] in Ha. rewrite Ha.
    destruct (IH Hrest (Eraser.visit false [a; b] st)) as [H1 H2].
    { unfold Eraser.visit. rewrite Hi. reflexivity. }
    rewrite H1, H2. unfold Eraser.visit. rewrite Hi.
    cbn [negb Eraser.segments Eraser.currentSegment].
    rewrite <- app_assoc. split; reflexivity.
Qed.

Lemma segmentsOf_clear (x y r : R) (pts : list R) (hc : bool) :
  Forall (outside x y r) (pointsOf pts) -> pts <> [] ->
  fst (Eraser.segmentsOf x y r pts hc) = [pts].
Proof.
  intros Hout Hne. unfold Eraser.segmentsOf. cbn [fst].
  destruct (walk_clear x y r pts Hout (Eraser.mkLoop [] [] false hc) eq_refl)
    as [H1 H2].
  rewrite H1, H2. cbn [Eraser.segments Eraser.currentSegment app].
  destruct pts; [congruence|]. reflexivity.
Qed.

Lemma anyInside_clear (x y r : R) (pts : list R) :
  Forall (outside x y r) (pointsOf pts) -> anyInside x y r pts = false.
Proof.
  induction pts as [| a | a b rest IH] using pairs_ind; intros Hout;
    cbn [anyInside]; try reflexivity.
  cbn [pointsOf] in Hout. apply Forall_cons_iff in Hout. destruct Hout as [Ha Hrest].
  apply Rleb_false in Ha. cbn [Pos.x Pos.y] in Ha. rewrite Ha, (IH Hrest).
  reflexivity.
Qed.

Lemma survivors_fixed (x y r : R) (line f : Line.t) :
  In f (survivors x y r line) ->
  survivors x y r f = [f] /\ strokeHit x y r f = false.
Proof.
  unfold survivors at 1.
  destruct (Nat.ltb_spec (length (Line.points line)) 4) as [Hshort | Hlong].
  - intros [<- | []]. unfold survivors, strokeHit.
    destruct (Nat.ltb_spec (length (Line.points line)) 4); [|lia].
    replace (4 <=? length (Line.points line))%nat with false
      by (symmetry; apply Nat.leb_gt; lia).
    split; reflexivity.
  - intros Hf.
    pose proof (fragments_outside x y r line f false Hf) as Hout.
    apply in_fragments in Hf. destruct Hf as (_ & Hlen & _).
    unfold survivors, strokeHit.
    destruct (Nat.ltb_spec (length (Line.points f)) 4); [lia|].
    rewrite (anyInside_clear x y r _ Hout), andb_false_r.
    split; [|reflexivity].
    rewrite segmentsOf_clear;
      [|exact Hout | intros E; rewrite E in Hlen; cbn [length] in Hlen; lia].
    unfold Eraser.fragments. cbn [filter]. unfold Eraser.longEnough.
    replace (4 <=? length (Line.points f))%nat with true
      by (symmetry; apply Nat.leb_le; exact Hlen).
    cbn [map]. destruct f. reflexivity.
Qed.

Lemma flat_map_fixed {A : Type} (f : A -> list A) (l : list A) :
  (forall a, In a l -> f a = [a]) -> flat_map f l = l.
Proof.
  induction l as [|a l IH]; intros H; [reflexivity|].
  cbn [flat_map]. rewrite (H a (or_introl eq_refl)), IH; [reflexivity|].
  intros b Hb. apply H. right. exact Hb.
Qed.

Lemma filter_twice {A : Type} (p : A -> bool) (l : list A) :
  filter p (filter p l) = filter p l.
Proof.
  induction l as [|a l IH]; [reflexivity|].
  cbn [filter]. destruct (p a) eqn:E; [|exact IH].
  cbn [filter]. rewrite E, IH. reflexivity.
Qed.

Lemma pass_twice (x y r : R) (lines : list Line.t) (shapes : list Shape.t) :
  Eraser.pass x y r
    (fst (fst (Eraser.pass x y r lines shapes)))
    (snd (fst (Eraser.pass x y r lines shapes)))
  = (fst (fst (Eraser.pass x y r lines shapes)),
     snd (fst (Eraser.pass x y r lines shapes)),
     false).
Proof.
  rewrite !pass_unfold. cbn [fst snd].
  assert (Hfix : forall f, In f (flat_map (survivors x y r) lines) ->
                   survivors x y r f = [f] /\ strokeHit x y r f = false).
  { intros f Hf. apply in_flat_map in Hf. destruct Hf as (line & _ & Hf).
    apply (survivors_fixed x y r line f Hf). }
  rewrite flat_map_fixed by (intros f Hf; apply Hfix, Hf).
  rewrite filter_twice.
  rewrite existsb_none by (intros f Hf; apply Hfix, Hf).
  rewrite existsb_none; [reflexivity|].
  intros shape Hin. apply filter_In in Hin. destruct Hin as [_ Hkeep].
  apply negb_true_iff in Hkeep. exact Hkeep.
Qed.

(** Erasing is idempotent.  A second pass at the same place, right after a
    first, finds nothing to erase: it leaves the board, the history and the
    socket as the first pass left them. *)
Theorem erase_twice_is_erase_once (render : State) (x y : R) :
  let once := eraseAtPoint render x y render in
  eraseAtPoint once x y once = once.
Proof.
  intros once.
  assert (Hv : viewport once = viewport render).
  { unfold once, eraseAtPoint. break_match; reflexivity. }
  assert (Hboard :
    (lines once, shapes once)
    = (fst (fst (Eraser.pass x y (12 / Viewport.scale (viewport render))
                   (lines render) (shapes render))),
       snd (fst (Eraser.pass x y (12 / Viewport.scale (viewport render))
                   (lines render) (shapes render))))
    \/ (once = render /\
        snd (Eraser.pass x y (12 / Viewport.scale (viewport render))
               (lines render) (shapes render)) = false)).
  { unfold once, eraseAtPoint.
    destruct (Eraser.pass x y (12 / Viewport.scale (viewport render))
                (lines render) (shapes render)) as [[newLines newShapes] hc].
    destruct hc; [left; reflexivity | right; split; reflexivity]. }
  destruct Hboard as [Hb | [Hsame Hno]].
  - injection Hb as Hl Hs.
    unfold eraseAtPoint at 1. rewrite Hv, Hl, Hs, pass_twice. reflexivity.
  - rewrite Hsame. unfold eraseAtPoint.
    destruct (Eraser.pass x y (12 / Viewport.scale (viewport render))
                (lines render) (shapes render)) as [[newLines newShapes] hc].
    cbn [snd] in Hno. subst hc. reflexivity.
Qed.



(** ** What is drawn *)

Lemma lineTos_even (pts : list R) :
  Nat.even (length pts) = true ->
  Redraw.lineTos pts
  = map (fun p => Redraw.LineTo (Pos.x p) (Pos.y p)) (pointsOf pts).
Proof.
  induction pts as [| a | a b rest IH] using pairs_ind; intros Hev.
  - reflexivity.
  - discriminate.
  - cbn [Redraw.lineTos pointsOf map Pos.x Pos.y]. rewrite IH by exact Hev.
    reflexivity.
Qed.

Lemma lineTos_odd (body : list R) (lastX : R) :
  Nat.even (length body) = true ->
  Redraw.lineTos (body ++ [lastX])
  = map (fun p => Redraw.LineTo (Pos.x p) (Pos.y p)) (pointsOf body)
      ++ [Redraw.LineToLone lastX].
Proof.
  induction body as [| a | a b rest IH] using pairs_ind; intros Hev.
  - reflexivity.
  - discriminate.
  - cbn [app Redraw.lineTos pointsOf map Pos.x Pos.y]. rewrite IH by exact Hev.
    reflexivity.
Qed.

(** What [redraw] draws for a line.  A line of fewer than 2 numbers is not
    drawn.  Any other line is drawn as one path: the stroke style (the colour
    of the line, black when it is empty) and the line width (that of the
    line, 2 when it is 0), [beginPath], one [moveTo] to the first point, one
    [lineTo] to each further point in order, and [stroke]; when a lone
    coordinate trails the points, one more call [lineTo(x, undefined)] comes
    before [stroke]. *)
Theorem drawn_path_follows_points (line : Line.t) :
  ((length (Line.points line) < 2)%nat -> Redraw.drawLine line = []) /\
  (forall x0 y0 rest,
     Line.points line = x0 :: y0 :: rest ->
     exists style width,
       (Line.color line <> "" -> style = Line.color line) /\
       (Line.color line = "" -> style = "#000000") /\
       (Line.lineWidth line <> 0 -> width = Line.lineWidth line) /\
       (Line.lineWidth line = 0 -> width = 2) /\
       (Nat.even (length rest) = true ->
        Redraw.drawLine line
        = [Redraw.SetStrokeStyle style; Redraw.SetLineWidth width;
           Redraw.BeginPath; Redraw.MoveTo x0 y0]
          ++ map (fun p => Redraw.LineTo (Pos.x p) (Pos.y p)) (pointsOf rest)
          ++ [Redraw.Stroke]) /\
       (forall body lastX,
          rest = body ++ [lastX] -> Nat.even (length body) = true ->
          Redraw.drawLine line
          = [Redraw.SetStrokeStyle style; Redraw.SetLineWidth width;
             Redraw.BeginPath; Redraw.MoveTo x0 y0]
            ++ map (fun p => Redraw.LineTo (Pos.x p) (Pos.y p)) (pointsOf body)
            ++ [Redraw.LineToLone lastX; Redraw.Stroke])).
Proof.
  split.
  - unfold Redraw.drawLine. destruct (Line.points line) as [|x0 [|y0 rest]];
      [reflexivity | reflexivity | cbn [length]; lia].
  - intros x0 y0 rest Hpts. unfold Redraw.drawLine. rewrite Hpts.
    exists (if String.eqb (Line.color line) "" then "#000000" else Line.color line),
           (if Req_dec_T (Line.lineWidth line) 0 then 2 else Line.lineWidth line).
    split; [|split; [|split; [|split; [|split]]]].
    + intros Hc. apply String.eqb_neq in Hc. rewrite Hc. reflexivity.
    + intros Hc. rewrite Hc. reflexivity.
    + intros Hw. destruct (Req_dec_T (Line.lineWidth line) 0); [contradiction|].
      reflexivity.
    + intros Hw. destruct (Req_dec_T (Line.lineWidth line) 0); [reflexivity|].
      contradiction.
    + intros Hev. rewrite (lineTos_even rest Hev). reflexivity.
    + intros body lastX Hrest Hev. rewrite Hrest, (lineTos_odd body lastX Hev).
      rewrite <- app_assoc. reflexivity.
Qed.

Lemma drawn_path_follows_points_witness :
  (length (Line.points Demo.lone) < 2)%nat /\
  Redraw.drawLine Demo.lone = [] /\
  Redraw.drawLine Sample.straight
  = [Redraw.SetStrokeStyle "#000000"; Redraw.SetLineWidth 2; Redraw.BeginPath;
     Redraw.MoveTo 0 0; Redraw.LineTo 10 0; Redraw.LineTo 20 0; Redraw.Stroke] /\
  Redraw.drawLine Demo.ragged
  = [Redraw.SetStrokeStyle "#000000"; Redraw.SetLineWidth 2; Redraw.BeginPath;
     Redraw.MoveTo 0 0; Redraw.LineTo 3 4; Redraw.LineToLone 9; Redraw.Stroke].
Proof.
  assert (H : (length (Line.points Demo.lone) < 2)%nat).
  { cbn [Demo.lone Line.points length]. lia. }
  split; [exact H|].
  split; [apply (drawn_path_follows_points Demo.lone); exact H|].
  split.
  - destruct (drawn_path_follows_points Sample.straight) as [_ Hs].
    destruct (Hs 0 0 [10; 0; 20; 0] eq_refl)
      as (style & width & Hc & _ & Hw & _ & Heven & _).
    rewrite (Heven eq_refl), Hc, Hw.
    + reflexivity.
    + cbn [Sample.straight Line.lineWidth]. lra.
    + cbn [Sample.straight Line.color]. discriminate.
  - destruct (drawn_path_follows_points Demo.ragged) as [_ Hs].
    destruct (Hs 0 0 [3; 4; 9] eq_refl)
      as (style & width & _ & Hc & _ & Hw & _ & Hodd).
    rewrite (Hodd [3; 4] 9 eq_refl eq_refl), Hc, Hw; reflexivity.
Defined.

(** The eraser and [redraw] agree on circles.  A circle is drawn as one arc
    around its anchor, of radius [sqrt (width * width + height * height)],
    and the eraser removes it exactly when the distance from the eraser to
    the anchor is at most that drawn radius plus the eraser's own. *)
Theorem eraser_reaches_drawn_circle
  (selectedColor : string) (selectedLineWidth : R) (shape : Shape.t) (x y r : R) :
  Shape.type shape = "circle" ->
  exists radius,
    Redraw.drawShape selectedColor selectedLineWidth shape
    = [Redraw.SetStrokeStyle selectedColor; Redraw.SetLineWidth selectedLineWidth;
       Redraw.BeginPath;
       Redraw.Arc (Shape.x shape) (Shape.y shape) radius 0 (2 * PI);
       Redraw.Stroke] /\
    0 <= radius /\
    (Eraser.removesShape x y r shape = true <->
     Eraser.distance (Shape.x shape) (Shape.y shape) x y <= radius + r).
Proof.
  intros Ht.
  exists (sqrt (Shape.width shape * Shape.width shape
                + Shape.height shape * Shape.height shape)).
  split; [|split].
  - unfold Redraw.drawShape. rewrite Ht. reflexivity.
  - apply sqrt_pos.
  - rewrite (removesShape_circle x y r shape Ht).
    unfold withinCircleReach, Eraser.distance.
    replace (Shape.width shape ^ 2 + Shape.height shape ^ 2)
      with (Shape.width shape * Shape.width shape
            + Shape.height shape * Shape.height shape) by ring.
    tauto.
Qed.

Lemma eraser_reaches_drawn_circle_witness :
  Shape.type Sample.disc = "circle" /\
  exists radius,
    Redraw.drawShape "#000000" 2 Sample.disc
    = [Redraw.SetStrokeStyle "#000000"; Redraw.SetLineWidth 2; Redraw.BeginPath;
       Redraw.Arc 0 0 radius 0 (2 * PI); Redraw.Stroke] /\
    0 <= radius.
Proof.
  split; [reflexivity|].
  destruct (eraser_reaches_drawn_circle "#000000" 2 Sample.disc 50 200 12 eq_refl)
    as (radius & Hd & Hpos & _).
  exists radius. split; [exact Hd | exact Hpos].
Defined.

(** ** The grid *)

(** The grid [drawGrid] lays out covers what the canvas shows and little
    more.  For a viewport whose scale is not zero, the four bounds are
    multiples of the 50-unit pitch; the left and top bounds are at most one
    cell before the world point at the canvas corner [(0, 0)], and the right
    and bottom bounds at most one cell after the world point at the corner
    [(width, height)]. *)
Theorem grid_covers_canvas (v : Viewport.t) (d : Grid.Dimensions) :
  Viewport.scale v <> 0 ->
  let b := Grid.bounds v d in
  let topLeft := Geometry.screenToWorld v 0 0 in
  let bottomRight := Geometry.screenToWorld v (Grid.width d) (Grid.height d) in
  (Grid.startX b <= Pos.x topLeft < Grid.startX b + 50) /\
  (Grid.startY b <= Pos.y topLeft < Grid.startY b + 50) /\
  (Grid.endX b - 50 < Pos.x bottomRight <= Grid.endX b) /\
  (Grid.endY b - 50 < Pos.y bottomRight <= Grid.endY b) /\
  (exists i j k l : Z,
     Grid.startX b = IZR i * 50 /\ Grid.endX b = IZR j * 50 /\
     Grid.startY b = IZR k * 50 /\ Grid.endY b = IZR l * 50).
Proof.
  intros Hs b topLeft bottomRight.
  unfold b, topLeft, bottomRight, Grid.bounds, Geometry.screenToWorld,
    Grid.floor, Grid.ceil, Grid.gridSize.
  cbn [Grid.startX Grid.startY Grid.endX Grid.endY Pos.x Pos.y].
  assert (Hfloor : forall t, IZR (Zfloor (t / 50)) * 50 <= t
                             < IZR (Zfloor (t / 50)) * 50 + 50).
  { intros t. pose proof (Zfloor_bound (t / 50)) as H. lra. }
  assert (Hceil : forall t, IZR (Zceil (t / 50)) * 50 - 50 < t
                            <= IZR (Zceil (t / 50)) * 50).
  { intros t. pose proof (Zceil_bound (t / 50)) as H. lra. }
  replace ((0 - Viewport.x v) / Viewport.scale v)
    with (- Viewport.x v / Viewport.scale v) by (field; exact Hs).
  replace ((0 - Viewport.y v) / Viewport.scale v)
    with (- Viewport.y v / Viewport.scale v) by (field; exact Hs).
  replace ((Grid.width d - Viewport.x v) / Viewport.scale v)
    with ((- Viewport.x v + Grid.width d) / Viewport.scale v) by (field; exact Hs).
  replace ((Grid.height d - Viewport.y v) / Viewport.scale v)
    with ((- Viewport.y v + Grid.height d) / Viewport.scale v) by (field; exact Hs).
  split; [apply Hfloor|]. split; [apply Hfloor|].
  split; [apply Hceil|]. split; [apply Hceil|].
  do 4 eexists. repeat split.
Qed.

Lemma grid_covers_canvas_witness :
  Viewport.scale (Viewport.mk 30 (-20) 2) <> 0 /\
  Grid.startX (Grid.bounds (Viewport.mk 30 (-20) 2) (Grid.mkDimensions 800 600))
  <= Pos.x (Geometry.screenToWorld (Viewport.mk 30 (-20) 2) 0 0).
Proof.
  assert (H : Viewport.scale (Viewport.mk 30 (-20) 2) <> 0).
  { cbn [Viewport.scale]. lra. }
  split; [exact H|].
  pose proof (grid_covers_canvas (Viewport.mk 30 (-20) 2)
                (Grid.mkDimensions 800 600) H) as Hg.
  cbv zeta in Hg. apply Hg.
Defined.

(** ** Presence *)

Lemma hasId_true (id : string) (u : User.t) :
  Presence.hasId id u = true <-> User.id u = id.
Proof. unfold Presence.hasId. apply String.eqb_eq. Qed.

Lemma hasId_false (id : string) (u : User.t) :
  Presence.hasId id u = false <-> User.id u <> id.
Proof. unfold Presence.hasId. apply String.eqb_neq. Qed.

Lemma find_hasId_none (id : string) (prev : list User.t) :
  find (Presence.hasId id) prev = None <-> ~ In id (map User.id prev).
Proof.
  induction prev as [|u prev IH]; cbn [find map In]; [tauto|].
  destruct (Presence.hasId id u) eqn:E.
  - apply hasId_true in E. split; [discriminate | tauto].
  - apply hasId_false in E. rewrite IH. tauto.
Qed.

Lemma map_replace_ids (user : User.t) (prev : list User.t) :
  map User.id
    (map (fun u => if Presence.hasId (User.id user) u
                   then Presence.activate user else u) prev)
  = map User.id prev.
Proof.
  rewrite map_map. apply map_ext. intros u.
  destruct (Presence.hasId (User.id user) u) eqn:E; [|reflexivity].
  apply hasId_true in E. cbn [Presence.activate User.id]. congruence.
Qed.

Lemma map_replace_twice (user : User.t) (prev : list User.t) :
  map (fun u => if Presence.hasId (User.id user) u then Presence.activate user else u)
    (map (fun u => if Presence.hasId (User.id user) u
                   then Presence.activate user else u) prev)
  = map (fun u => if Presence.hasId (User.id user) u
                  then Presence.activate user else u) prev.
Proof.
  rewrite map_map. apply map_ext. intros u.
  destruct (Presence.hasId (User.id user) u) eqn:E; [|rewrite E; reflexivity].
  replace (Presence.hasId (User.id user) (Presence.activate user)) with true;
    [reflexivity|].
  symmetry. apply hasId_true. reflexivity.
Qed.

Lemma map_replace_absent (user : User.t) (prev : list User.t) :
  ~ In (User.id user) (map User.id prev) ->
  map (fun u => if Presence.hasId (User.id user) u then Presence.activate user else u)
      prev = prev.
Proof.
  intros Hno. rewrite <- (map_id prev) at 2. apply map_ext_in. intros u Hu.
  replace (Presence.hasId (User.id user) u) with false; [reflexivity|].
  symmetry. apply hasId_false. intros E. apply Hno. rewrite <- E.
  apply in_map, Hu.
Qed.

Lemma userJoined_absent_helper (user : User.t) (prev : list User.t) (userId : string) :
  User.id user = userId -> ~ In userId (map User.id prev) ->
  Presence.userJoined user prev = prev ++ [Presence.activate user].
Proof.
  intros Hid Hno. unfold Presence.userJoined.
  replace (find (Presence.hasId (User.id user)) prev) with (@None User.t);
    [reflexivity|].
  symmetry. apply find_hasId_none. rewrite Hid. exact Hno.
Qed.

Lemma userJoined_known (user : User.t) (prev : list User.t) :
  In (User.id user) (map User.id prev) ->
  Presence.userJoined user prev
  = map (fun u => if Presence.hasId (User.id user) u
                  then Presence.activate user else u) prev.
Proof.
  intros Hin. unfold Presence.userJoined.
  destruct (find (Presence.hasId (User.id user)) prev) eqn:E; [reflexivity|].
  apply find_hasId_none in E. contradiction.
Qed.

(** [userJoined] is an idempotent upsert keyed by the user id.  A user whose
    id is new is appended, made active; a user whose id is known replaces
    every entry with that id, in place.  Either way the id is present
    afterwards, every entry with that id is the announced user made active,
    ids that were distinct stay distinct, and announcing the same user again
    changes nothing. *)
Theorem userJoined_upsert (user : User.t) (prev : list User.t) :
  (In (User.id user) (map User.id prev) ->
   map User.id (Presence.userJoined user prev) = map User.id prev) /\
  (~ In (User.id user) (map User.id prev) ->
   Presence.userJoined user prev = prev ++ [Presence.activate user]) /\
  In (User.id user) (map User.id (Presence.userJoined user prev)) /\
  (forall u, In u (Presence.userJoined user prev) ->
     User.id u = User.id user -> u = Presence.activate user) /\
  (NoDup (map User.id prev) -> NoDup (map User.id (Presence.userJoined user prev))) /\
  Presence.userJoined user (Presence.userJoined user prev)
  = Presence.userJoined user prev.
Proof.
  destruct (in_dec string_dec (User.id user) (map User.id prev)) as [Hin | Hno].
  - rewrite !(userJoined_known user prev Hin).
    assert (Hin' : In (User.id user)
                      (map User.id
                         (map (fun u => if Presence.hasId (User.id user) u
                                        then Presence.activate user else u) prev)))
      by (rewrite map_replace_ids; exact Hin).
    rewrite (userJoined_known user _ Hin').
    split; [intros _; apply map_replace_ids|].
    split; [tauto|].
    split; [exact Hin'|].
    split.
    { intros u Hu Hid. apply in_map_iff in Hu. destruct Hu as (u0 & Hu0 & _).
      destruct (Presence.hasId (User.id user) u0) eqn:E; [congruence|].
      apply hasId_false in E. congruence. }
    split; [rewrite map_replace_ids; tauto|].
    apply map_replace_twice.
  - rewrite !(userJoined_absent_helper user prev (User.id user) eq_refl Hno).
    assert (Hin' : In (User.id user) (map User.id (prev ++ [Presence.activate user]))).
    { rewrite map_app. apply in_or_app. right. left. reflexivity. }
    rewrite (userJoined_known user _ Hin').
    split; [tauto|]. split; [reflexivity|].
    split; [exact Hin'|].
    split.
    { intros u Hu Hid. apply in_app_or in Hu. destruct Hu as [Hu | [Hu | []]].
      - exfalso. apply Hno. rewrite <- Hid. apply in_map, Hu.
      - congruence. }
    split.
    { intros Hnd. rewrite map_app. cbn [map Presence.activate User.id].
      apply NoDup_app; [exact Hnd | repeat constructor; intros [] |].
      intros id Hid [<- | []]. contradiction. }
    rewrite map_app, map_replace_absent by exact Hno. cbn [map].
    replace (Presence.hasId (User.id user) (Presence.activate user)) with true;
      [reflexivity|].
    symmetry. apply hasId_true. reflexivity.
Qed.

Lemma userJoined_upsert_witness :
  ~ In (User.id Demo.bob) (map User.id [Demo.alice]) /\
  Presence.userJoined Demo.bob [Demo.alice] = [Demo.alice; Presence.activate Demo.bob] /\
  NoDup (map User.id [Demo.alice]) /\
  NoDup (map User.id (Presence.userJoined Demo.bob [Demo.alice])).
Proof.
  assert (Hno : ~ In (User.id Demo.bob) (map User.id [Demo.alice])).
  { cbn. intros [H | []]. discriminate. }
  assert (Hnd : NoDup (map User.id [Demo.alice])).
  { cbn. repeat constructor. intros []. }
  pose proof (userJoined_upsert Demo.bob [Demo.alice]) as (_ & H2 & _ & _ & H5 & _).
  split; [exact Hno|]. split; [exact (H2 Hno)|]. split; [exact Hnd | exact (H5 Hnd)].
Defined.

(** [userLeft] removes every entry with the id and nothing else, so a user
    who joins and leaves again leaves the presence list as it was. *)
Theorem userLeft_removes (userId : string) (prev : list User.t) :
  ~ In userId (map User.id (Presence.userLeft userId prev)) /\
  (forall u, User.id u <> userId ->
     (In u (Presence.userLeft userId prev) <-> In u prev)) /\
  (~ In userId (map User.id prev) -> Presence.userLeft userId prev = prev) /\
  (forall user,
     User.id user = userId -> ~ In userId (map User.id prev) ->
     Presence.userLeft userId (Presence.userJoined user prev) = prev).
Proof.
  assert (Habsent : forall l, ~ In userId (map User.id l) ->
                      Presence.userLeft userId l = l).
  { intros l Hno. unfold Presence.userLeft.
    induction l as [|u l IH]; [reflexivity|].
    cbn [filter]. cbn [map In] in Hno.
    replace (Presence.hasId userId u) with false
      by (symmetry; apply hasId_false; tauto).
    cbn [negb]. rewrite IH by tauto. reflexivity. }
  split; [|split; [|split; [exact (Habsent prev)|]]].
  - intros Hin. apply in_map_iff in Hin. destruct Hin as (u & Hid & Hu).
    apply filter_In in Hu. destruct Hu as [_ Hu].
    apply negb_true_iff, hasId_false in Hu. contradiction.
  - intros u Hid. unfold Presence.userLeft. rewrite filter_In.
    assert (negb (Presence.hasId userId u) = true)
      by (apply negb_true_iff, hasId_false; exact Hid).
    tauto.
  - intros user Hid Hno.
    rewrite (userJoined_absent_helper user prev userId Hid Hno).
    unfold Presence.userLeft. rewrite filter_app. cbn [filter].
    replace (Presence.hasId userId (Presence.activate user)) with true
      by (symmetry; apply hasId_true; exact Hid).
    cbn [negb]. rewrite app_nil_r. apply (Habsent prev Hno).
Qed.

Lemma userLeft_removes_witness :
  User.id Demo.bob = "b2" /\
  ~ In "b2" (map User.id [Demo.alice]) /\
  Presence.userLeft "b2" (Presence.userJoined Demo.bob [Demo.alice]) = [Demo.alice].
Proof.
  assert (Hno : ~ In "b2" (map User.id [Demo.alice])).
  { cbn. intros [H | []]. discriminate. }
  split; [reflexivity|]. split; [exact Hno|].
  destruct (userLeft_removes "b2" [Demo.alice]) as (_ & _ & _ & H).
  exact (H Demo.bob eq_refl Hno).
Defined.

Lemma cursorUpdate_ids (userId : string) (cursor : option Pos.t) (now : Z)
  (prev : list User.t) :
  map User.id (Presence.cursorUpdate userId cursor now prev) = map User.id prev.
Proof.
  unfold Presence.cursorUpdate. rewrite map_map. apply map_ext. intros u.
  destruct (Presence.hasId userId u); reflexivity.
Qed.

(** A cursor update keeps a user alive, and only a known one.  [cursorUpdate]
    never adds or removes an entry and does nothing for an unknown id; for a
    known id it stamps the entries with the time of the update, so the user
    survives every sweep that runs less than 30 seconds later and is evicted
    by a sweep that runs 30 seconds later or more.  A sweep keeps exactly the
    users last seen less than 30 seconds before it. *)
Theorem cursor_update_keeps_alive
  (userId : string) (cursor : option Pos.t) (t now : Z) (prev : list User.t) :
  (forall u, In u (Presence.sweep now prev) <->
             In u prev /\ (now - User.lastSeen u < 30000)%Z) /\
  map User.id (Presence.cursorUpdate userId cursor t prev) = map User.id prev /\
  (~ In userId (map User.id prev) ->
   Presence.cursorUpdate userId cursor t prev = prev) /\
  (In userId (map User.id prev) -> (now - t < 30000)%Z ->
   In userId (map User.id
                (Presence.sweep now (Presence.cursorUpdate userId cursor t prev)))) /\
  ((30000 <= now - t)%Z ->
   ~ In userId (map User.id
                  (Presence.sweep now (Presence.cursorUpdate userId cursor t prev)))).
Proof.
  split; [|split; [apply cursorUpdate_ids|split; [|split]]].
  - intros u. unfold Presence.sweep. rewrite filter_In, Z.ltb_lt. tauto.
  - intros Hno. unfold Presence.cursorUpdate.
    rewrite <- (map_id prev) at 2. apply map_ext_in. intros u Hu.
    replace (Presence.hasId userId u) with false; [reflexivity|].
    symmetry. apply hasId_false. intros E. apply Hno. rewrite <- E.
    apply in_map, Hu.
  - intros Hin Hfresh. apply in_map_iff in Hin. destruct Hin as (u & Hid & Hu).
    apply in_map_iff.
    exists (User.mk (User.id u) (User.name u) (User.color u) cursor true t).
    split; [exact Hid|].
    unfold Presence.sweep. apply filter_In. split.
    + unfold Presence.cursorUpdate. apply in_map_iff. exists u.
      split; [|exact Hu].
      replace (Presence.hasId userId u) with true; [reflexivity|].
      symmetry. apply hasId_true. exact Hid.
    + cbn [User.lastSeen]. apply Z.ltb_lt. exact Hfresh.
  - intros Hstale Hin. apply in_map_iff in Hin. destruct Hin as (u & Hid & Hu).
    unfold Presence.sweep in Hu. apply filter_In in Hu. destruct Hu as [Hu Hkeep].
    apply Z.ltb_lt in Hkeep.
    unfold Presence.cursorUpdate in Hu. apply in_map_iff in Hu.
    destruct Hu as (u0 & Hu0 & _).
    destruct (Presence.hasId userId u0) eqn:E.
    + subst u. cbn [User.lastSeen] in Hkeep. lia.
    + subst u. apply hasId_false in E. contradiction.
Qed.

Lemma cursor_update_keeps_alive_witness :
  In "a1" (map User.id [Demo.alice; Demo.bob]) /\
  (40000 - 20000 < 30000)%Z /\
  In "a1" (map User.id
             (Presence.sweep 40000
                (Presence.cursorUpdate "a1" None 20000 [Demo.alice; Demo.bob]))) /\
  ~ In "a1" (map User.id (Presence.sweep 40000 [Demo.alice; Demo.bob])).
Proof.
  assert (Hin : In "a1" (map User.id [Demo.alice; Demo.bob])) by (left; reflexivity).
  assert (Hf : (40000 - 20000 < 30000)%Z) by lia.
  split; [exact Hin|]. split; [exact Hf|]. split.
  - destruct (cursor_update_keeps_alive "a1" None 20000 40000 [Demo.alice; Demo.bob])
      as (_ & _ & _ & H & _).
    exact (H Hin Hf).
  - cbn. intros [].
Defined.

(** ** Zooming repeatedly *)

Lemma zoomAt_anchor (deltaY mouseX mouseY : R) (prev : Viewport.t) :
  0 < Viewport.scale prev ->
  Geometry.screenToWorld (Geometry.zoomAt deltaY mouseX mouseY prev) mouseX mouseY
  = Geometry.screenToWorld prev mouseX mouseY /\
  0.1 <= Viewport.scale (Geometry.zoomAt deltaY mouseX mouseY prev) <= 5.
Proof.
  intros Hs.
  pose proof (clamp_bounds
                (Viewport.scale prev * (if Rgtb deltaY 0 then 1 - 0.1 else 1 + 0.1)))
    as Hb.
  split; [|rewrite zoomAt_scale; exact Hb].
  unfold Geometry.screenToWorld, Geometry.zoomAt.
  cbn [Viewport.x Viewport.y Viewport.scale].
  destruct Hb as [Hb1 Hb2].
  generalize dependent
    (Rmax 0.1 (Rmin 5 (Viewport.scale prev
                       * (if Rgtb deltaY 0 then 1 - 0.1 else 1 + 0.1)))).
  intros ns Hb1 Hb2. f_equal; field; lra.
Qed.

Lemma wheel_step (s : State) (rect : Rect.t) (deltaY cx cy : R) :
  canvasRect s = Some rect ->
  0 < Viewport.scale (viewport s) ->
  let s' := handleWheel (WheelEvent.mk deltaY cx cy) s in
  canvasRect s' = Some rect /\
  0.1 <= Viewport.scale (viewport s') <= 5 /\
  Geometry.screenToWorld (viewport s') (cx - Rect.left rect) (cy - Rect.top rect)
  = Geometry.screenToWorld (viewport s) (cx - Rect.left rect) (cy - Rect.top rect) /\
  lines s' = lines s /\ shapes s' = shapes s /\
  history s' = history s /\ historyIndex s' = historyIndex s /\
  emitted s' = emitted s.
Proof.
  intros Hrect Hs s'. unfold s', handleWheel. rewrite Hrect. state_simpl.
  cbn [WheelEvent.deltaY WheelEvent.clientX WheelEvent.clientY].
  destruct (zoomAt_anchor deltaY (cx - Rect.left rect) (cy - Rect.top rect)
              (viewport s) Hs) as [Ha Hb].
  repeat split; try assumption; apply Hb.
Qed.

(** Zooming is anchored over a whole run of the wheel.  With the pointer
    held at one place over a mounted canvas, after any number of wheel events
    in either direction the world point under the pointer is the one it was
    at the start; the board, the history and the socket are untouched. *)
Theorem wheel_run_anchored
  (s : State) (rect : Rect.t) (cx cy : R) (deltas : list R) :
  canvasRect s = Some rect ->
  0 < Viewport.scale (viewport s) ->
  let s' := run (map (fun deltaY => Wheel (WheelEvent.mk deltaY cx cy)) deltas) s in
  Geometry.screenToWorld (viewport s') (cx - Rect.left rect) (cy - Rect.top rect)
  = Geometry.screenToWorld (viewport s) (cx - Rect.left rect) (cy - Rect.top rect) /\
  0 < Viewport.scale (viewport s') /\
  lines s' = lines s /\ shapes s' = shapes s /\
  history s' = history s /\ historyIndex s' = historyIndex s /\
  emitted s' = emitted s.
Proof.
  revert s. induction deltas as [|deltaY deltas IH]; intros s Hrect Hs.
  - cbn [map run fold_left]. repeat split. exact Hs.
  - cbn [map]. unfold run. cbn [fold_left dispatch].
    destruct (wheel_step s rect deltaY cx cy Hrect Hs)
      as (Hr1 & Hb1 & Ha1 & Hl1 & Hsh1 & Hh1 & Hi1 & He1).
    assert (Hs1 : 0 < Viewport.scale
                        (viewport (handleWheel (WheelEvent.mk deltaY cx cy) s)))
      by lra.
    destruct (IH _ Hr1 Hs1) as (Ha & Hp & Hl & Hsh & Hh & Hi & He).
    unfold run in *.
    repeat split; try congruence; exact Hp.
Qed.

Lemma wheel_run_anchored_witness :
  canvasRect Sample.fresh = Some Sample.rect /\
  0 < Viewport.scale (viewport Sample.fresh) /\
  Geometry.screenToWorld
    (viewport (run [Wheel (WheelEvent.mk 1 100 50); Wheel (WheelEvent.mk (-1) 100 50);
                    Wheel (WheelEvent.mk (-1) 100 50)] Sample.fresh))
    (100 - Rect.left Sample.rect) (50 - Rect.top Sample.rect)
  = Geometry.screenToWorld (viewport Sample.fresh)
      (100 - Rect.left Sample.rect) (50 - Rect.top Sample.rect).
Proof.
  assert (Hr : canvasRect Sample.fresh = Some Sample.rect) by reflexivity.
  assert (Hs : 0 < Viewport.scale (viewport Sample.fresh)).
  { cbn [Sample.fresh initialState viewport Viewport.scale]. lra. }
  split; [exact Hr|]. split; [exact Hs|].
  pose proof (wheel_run_anchored Sample.fresh Sample.rect 100 50 [1; -1; -1] Hr Hs) as H.
  cbv zeta in H. apply H.
Defined.

(** ** A remote stroke in the middle of a pen gesture *)

(** The pen appends to whatever stroke is last.  When a [draw] event brings a
    remote stroke between the pointer-down and a pointer-move of a pen
    gesture, the move extends the remote stroke, not the local one, and the
    pointer-up sends the remote stroke with the local point added; the stroke
    begun by the pointer-down keeps its single point and is not sent. *)
Theorem remote_stroke_takes_over_gesture
  (s : State) (down move : MouseEvent.t) (remote : Line.t) :
  selectedTool s = "pen" ->
  isPanning s = false ->
  MouseEvent.button down = 0%Z ->
  let s' := run [MouseDown down; Draw (DrawBare (OfLine remote));
                 MouseMove move; MouseUp] s in
  let begun := Line.mk (penPath s [down]) "pen"
                       (selectedColor s) (selectedLineWidth s) in
  let extended := Line.mk (Line.points remote ++ penPath s [move])
                          (Line.tool remote) (Line.color remote)
                          (Line.lineWidth remote) in
  lines s' = lines s ++ [begun; extended] /\
  emitted s' = emitted s ++ [EmitDraw (roomId s) (OfLine extended)].
Proof.
  intros Ht Hp Hb s' begun extended.
  pose proof (mouseDown_pen s down Ht Hp Hb) as Hd.
  destruct Hd as (Hl & Hsh & Ht1 & Hp1 & Hd1 & Hst & Hh & Hi & He & Hr).
  assert (Hv : viewport (handleMouseDown down s) = viewport s
               /\ canvasRect (handleMouseDown down s) = canvasRect s).
  { unfold handleMouseDown. rewrite Hb, Ht.
    cbn [Z.eqb orb String.eqb Ascii.eqb Bool.eqb]. state_simpl. split; reflexivity. }
  destruct Hv as [Hv Hrect].
  set (s1 := handleMouseDown down s) in *.
  set (s2 := onDraw (DrawBare (OfLine remote)) s1).
  assert (Hpos : getMousePos s2 move = getMousePos s move).
  { apply getMousePos_frame; [exact Hv | exact Hrect]. }
  destruct (startPos s1) as [start|] eqn:Estart; [|congruence].
  assert (Hs3 : handleMouseMove move s2
                = updLines (extendLastLine (getMousePos s move)) s2).
  { unfold handleMouseMove. rewrite Hpos.
    change (isPanning s2) with (isPanning s1).
    change (isDrawingRef s2) with (isDrawingRef s1).
    change (startPos s2) with (startPos s1).
    change (selectedTool s2) with (selectedTool s1).
    rewrite Hp1, Hd1, Estart, Ht1. reflexivity. }
  assert (Hl3 : lines (handleMouseMove move s2) = lines s ++ [begun; extended]).
  { rewrite Hs3. state_simpl. change (lines s2) with (lines s1 ++ [remote]).
    unfold extendLastLine. rewrite lastElem_snoc, slice0_drop_last, Hl.
    rewrite <- app_assoc. reflexivity. }
  assert (Hs' : s' = handleMouseUp (handleMouseMove move s2)) by reflexivity.
  rewrite Hs'. unfold handleMouseUp.
  rewrite Hl3. rewrite Hs3.
  change (isPanning (updLines (extendLastLine (getMousePos s move)) s2))
    with (isPanning s1).
  change (isDrawingRef (updLines (extendLastLine (getMousePos s move)) s2))
    with (isDrawingRef s1).
  change (selectedTool (updLines (extendLastLine (getMousePos s move)) s2))
    with (selectedTool s1).
  rewrite Hp1, Hd1, Ht1. cbn [negb String.eqb Ascii.eqb Bool.eqb].
  replace (lines s ++ [begun; extended]) with ((lines s ++ [begun]) ++ [extended])
    by (rewrite <- app_assoc; reflexivity).
  rewrite lastElem_snoc.
  assert (Hne : JsArray.nonEmpty (Line.points extended) = true).
  { unfold extended. cbn [Line.points penPath flat_map].
    destruct (Line.points remote); reflexivity. }
  rewrite Hne. state_simpl.
  change (lines (updLines (extendLastLine (getMousePos s move)) s2))
    with (extendLastLine (getMousePos s move) (lines s2)).
  change (emitted s2) with (emitted s1). change (roomId s2) with (roomId s1).
  rewrite He, Hr. split; [|reflexivity].
  change (lines s2) with (lines s1 ++ [remote]).
  unfold extendLastLine. rewrite lastElem_snoc, slice0_drop_last, Hl.
  rewrite <- !app_assoc. reflexivity.
Qed.

Lemma remote_stroke_takes_over_gesture_witness :
  selectedTool Sample.fresh = "pen" /\
  isPanning Sample.fresh = false /\
  MouseEvent.button Demo.press = 0%Z /\
  emitted (run [MouseDown Demo.press; Draw (DrawBare (OfLine Sample.stroke0055));
                MouseMove Demo.dragTo; MouseUp] Sample.fresh)
  = emitted Sample.fresh
      ++ [EmitDraw (roomId Sample.fresh)
            (OfLine (Line.mk (Line.points Sample.stroke0055
                                ++ penPath Sample.fresh [Demo.dragTo])
                             (Line.tool Sample.stroke0055)
                             (Line.color Sample.stroke0055)
                             (Line.lineWidth Sample.stroke0055)))].
Proof.
  split; [reflexivity|]. split; [reflexivity|]. split; [reflexivity|].
  pose proof (remote_stroke_takes_over_gesture Sample.fresh Demo.press Demo.dragTo
                Sample.stroke0055 eq_refl eq_refl eq_refl) as H.
  cbv zeta in H. apply H.
Defined.
